(** * QMuPDF::Document — a shallow embedding of [document.cpp]

    The adapter between Okular and the MuPDF engine: document life cycle
    (load / unlock / close), metadata (Info dictionary, PDF version, page
    mode) and the outline tree.

    MuPDF, Qt and the C library are outside the repository.  MuPDF and Qt
    are taken as interfaces ([Engine], [Qt]) whose operations are the calls
    made by [document.cpp]; a C pointer that may be null is an [option].
    The C library calls ([setlocale], [sscanf], IEEE arithmetic) are written
    out from the C standard. *)

From Stdlib Require Import ZArith QArith Qabs String Ascii List Lia Lqa.
From Stdlib Require Import SpecFloat.
From stdpp Require Import base option list strings.

Import ListNotations.
Set Warnings "-register-all".
Local Open Scope Z_scope.
Local Open Scope string_scope.
Local Open Scope list_scope.

(** ** The engine interface *)

(** [fz_try]/[fz_catch]: a call either returns or throws. *)
Inductive fz_result (A : Type) : Type :=
| fz_ok (a : A)
| fz_throw.
Arguments fz_ok {A} a.
Arguments fz_throw {A}.

(** [struct fz_outline]: the engine's intrusive list of bookmarks.  [fz_null]
    is the null pointer; [title] and [uri] are nullable C strings; [down] is
    the first child and [next] the next sibling. *)
Inductive fz_outline : Type :=
| fz_null
| fz_node (title : option string) (uri : option string)
          (down : fz_outline) (next : fz_outline).

(** The MuPDF calls used by the source.  Every pointer argument is nullable,
    as in the C signatures; [fz_lookup_format] is
    [fz_lookup_metadata(ctx, doc, FZ_META_FORMAT, buf, sizeof buf)], with
    [None] for the return value -1 and [Some buf] otherwise. *)
Class Engine : Type := {
  fz_stream : Type;
  fz_document : Type;
  pdf_obj : Type;
  fz_open_file : string -> option fz_stream;
  fz_open_document_with_stream : option fz_stream -> fz_result (option fz_document);
  fz_needs_password : option fz_document -> bool;
  fz_authenticate_password : option fz_document -> string -> bool;
  fz_count_pages : option fz_document -> Z;
  fz_load_outline : option fz_document -> fz_outline;
  fz_lookup_format : option fz_document -> option string;
  pdf_trailer : option fz_document -> option pdf_obj;
  pdf_dict_gets : option pdf_obj -> string -> option pdf_obj;
  pdf_dict_len : option pdf_obj -> Z;
  pdf_dict_get_key : option pdf_obj -> Z -> option pdf_obj;
  pdf_resolve_indirect : option pdf_obj -> option pdf_obj;
  pdf_is_name : option pdf_obj -> bool;
  pdf_to_name : option pdf_obj -> string;
  pdf_is_string : option pdf_obj -> bool;
  pdf_new_utf8_from_pdf_string_obj : option pdf_obj -> option string
}.

(** The Qt calls used by the source: [QString::fromUtf8] on a non-null C
    string and [QFile::encodeName]. *)
Class Qt : Type := {
  fromUtf8 : string -> string;
  encodeName : string -> string
}.

(** [QString]: a default-constructed string is null; [QString::fromUtf8] of a
    non-null pointer never is. *)
Inductive QString : Type :=
| QString_null
| QString_text (s : string).

Definition isEmpty (q : QString) : bool :=
  match q with
  | QString_null => true
  | QString_text s => Nat.eqb (String.length s) 0
  end.

(** ** Data model *)

Inductive PageMode : Type :=
| UseNone | UseOutlines | UseThumbs | FullScreen | UseOC | UseAttachments.

(** An [Outline] object in the free store; children are held by pointer. *)
Record Outline : Type := mkOutline {
  m_title : QString;
  m_link : string;
  m_children : list nat
}.

(** Lookup in an association list, first match. *)
Fixpoint assoc {A : Type} (key : string) (entries : list (string * A)) : option A :=
  match entries with
  | [] => None
  | (k, v) :: rest => if String.eqb k key then Some v else assoc key rest
  end.

(** ** A state monad

    The methods of [Document] read and write the object behind [d] and a few
    process-wide things; they are written in a state monad. *)

Definition State (W A : Type) : Type := W -> A * W.

Definition ret {W A} (a : A) : State W A := fun w => (a, w).

Definition bind {W A B} (m : State W A) (k : A -> State W B) : State W B :=
  fun w => let (a, w') := m w in k a w'.

Notation "x <- m ;; k" := (bind m (fun x => k))
  (at level 100, m at next level, right associativity).
Notation "m ;; k" := (bind m (fun _ => k))
  (at level 100, right associativity).

Section Model.
Context {E : Engine} {QT : Qt}.

(** [Document::Data] without [ctx], which is set once by the constructor and
    never read by the code modelled here other than to be passed along. *)
Record Data : Type := mkData {
  mdoc : option fz_document;
  stream : option fz_stream;
  pageCount : Z;
  info : option pdf_obj;
  pageMode : PageMode;
  locked : bool
}.

(** What a [Document] method can touch: its [Data], the process-wide
    LC_NUMERIC locale, the [qWarning] stream and the free store of [Outline]
    objects (a pointer is an index into it). *)
Record World : Type := mkWorld {
  data : Data;
  lc_numeric : string;
  warnings : list string;
  store : list Outline
}.

Definition M : Type -> Type := State World.

(** [Data()] *)
Definition Data_init : Data :=
  {| mdoc := None; stream := None; pageCount := 0; info := None;
     pageMode := UseNone; locked := false |}.

Definition get_data : M Data := fun w => (data w, w).

Definition modify_data (f : Data -> Data) : M unit :=
  fun w => (tt, {| data := f (data w); lc_numeric := lc_numeric w;
                   warnings := warnings w; store := store w |}).

Definition set_mdoc (v : option fz_document) : M unit :=
  modify_data (fun d => {| mdoc := v; stream := stream d; pageCount := pageCount d;
                           info := info d; pageMode := pageMode d; locked := locked d |}).
Definition set_stream (v : option fz_stream) : M unit :=
  modify_data (fun d => {| mdoc := mdoc d; stream := v; pageCount := pageCount d;
                           info := info d; pageMode := pageMode d; locked := locked d |}).
Definition set_pageCount (v : Z) : M unit :=
  modify_data (fun d => {| mdoc := mdoc d; stream := stream d; pageCount := v;
                           info := info d; pageMode := pageMode d; locked := locked d |}).
Definition set_info (v : option pdf_obj) : M unit :=
  modify_data (fun d => {| mdoc := mdoc d; stream := stream d; pageCount := pageCount d;
                           info := v; pageMode := pageMode d; locked := locked d |}).
Definition set_pageMode (v : PageMode) : M unit :=
  modify_data (fun d => {| mdoc := mdoc d; stream := stream d; pageCount := pageCount d;
                           info := info d; pageMode := v; locked := locked d |}).
Definition set_locked (v : bool) : M unit :=
  modify_data (fun d => {| mdoc := mdoc d; stream := stream d; pageCount := pageCount d;
                           info := info d; pageMode := pageMode d; locked := v |}).

(** [qWarning() << msg] *)
Definition qWarning (msg : string) : M unit :=
  fun w => (tt, {| data := data w; lc_numeric := lc_numeric w;
                   warnings := warnings w ++ [msg]; store := store w |}).

(** [std::setlocale(LC_NUMERIC, locale)], C11 7.11.1.1: with a null
    [locale] the current name is returned and nothing changes; otherwise the
    locale is switched and the name of the NEW locale is returned.  The source
    only passes "C" and a name that [setlocale] itself returned, both of
    which can always be honoured, so the failing case (null result, locale
    unchanged) does not arise. *)
Definition setlocale (locale : option string) : M (option string) :=
  fun w =>
    match locale with
    | None => (Some (lc_numeric w), w)
    | Some l => (Some l, {| data := data w; lc_numeric := l;
                            warnings := warnings w; store := store w |})
    end.

(** ** [Document::Data] methods *)

(** [dict(key)] *)
Definition dict (key : string) (d : Data) : option pdf_obj :=
  pdf_dict_gets (pdf_trailer (mdoc d)) key.

(** [loadInfoDict()] *)
Definition loadInfoDict : M unit :=
  d <- get_data ;;
  match info d with
  | None => set_info (dict "Info" d)
  | Some _ => ret tt
  end.

(** [Data::load()] *)
Definition Data_load : M bool :=
  d <- get_data ;;
  match dict "Root" d with
  | None => ret false
  | Some root =>
      set_pageCount (fz_count_pages (mdoc d)) ;;
      let obj := pdf_dict_gets (Some root) "PageMode" in
      (if bool_decide (is_Some obj) && pdf_is_name obj then
         let mode := pdf_to_name obj in
         if String.eqb mode "UseNone" then set_pageMode UseNone
         else if String.eqb mode "UseOutlines" then set_pageMode UseOutlines
         else if String.eqb mode "UseThumbs" then set_pageMode UseThumbs
         else if String.eqb mode "FullScreen" then set_pageMode FullScreen
         else if String.eqb mode "UseOC" then set_pageMode UseOC
         else if String.eqb mode "UseAttachments" then set_pageMode UseAttachments
         else ret tt
       else ret tt) ;;
      ret true
  end.

(** ** [Document] life cycle *)

(** [Document::load(fileName)] *)
Definition load (fileName : string) : M bool :=
  let fileData := encodeName fileName in
  set_stream (fz_open_file fileData) ;;
  d <- get_data ;;
  match stream d with
  | None => ret false
  | Some _ =>
      oldlocale <- setlocale (Some "C") ;;
      match fz_open_document_with_stream (stream d) with
      | fz_throw =>
          qWarning "Error when trying to load document" ;;
          set_mdoc None ;;
          ret false
      | fz_ok doc =>
          set_mdoc doc ;;
          match oldlocale with
          | Some l => setlocale (Some l) ;; ret tt
          | None => ret tt
          end ;;
          d <- get_data ;;
          match mdoc d with
          | None => ret false
          | Some _ =>
              set_locked (fz_needs_password (mdoc d)) ;;
              d <- get_data ;;
              if negb (locked d) then
                ok <- Data_load ;;
                if negb ok then ret false else ret true
              else ret true
          end
      end
  end.

(** [Document::close()] *)
Definition close : M unit :=
  d <- get_data ;;
  match mdoc d with
  | None => ret tt
  | Some _ =>
      (* fz_drop_document *)
      set_mdoc None ;;
      (* fz_drop_stream *)
      set_stream None ;;
      set_pageCount 0 ;;
      set_info None ;;
      set_pageMode UseNone ;;
      set_locked false
  end.

(** [Document::isLocked()] *)
Definition isLocked (w : World) : bool := locked (data w).

(** [Document::unlock(password)] *)
Definition unlock (password : string) : M bool :=
  d <- get_data ;;
  if negb (locked d) then ret false
  else
    let a := password in
    if negb (fz_authenticate_password (mdoc d) a) then ret false
    else
      set_locked false ;;
      ok <- Data_load ;;
      if negb ok then ret false else ret true.

(** [Document::pageCount()] and [Document::pageMode()] *)
Definition Document_pageCount (w : World) : Z := pageCount (data w).
Definition Document_pageMode (w : World) : PageMode := pageMode (data w).


(** ** Metadata *)

(** [Document::infoKeys()]; the [for] loop over [0 .. dictSize-1] is a fold
    that appends to [keys]. *)
Definition infoKeys : M (list string) :=
  let keys := [] in
  d <- get_data ;;
  match mdoc d with
  | None => ret keys
  | Some _ =>
      loadInfoDict ;;
      d <- get_data ;;
      match info d with
      | None => ret keys
      | Some _ =>
          let dictSize := pdf_dict_len (info d) in
          ret (fold_left
                 (fun keys i =>
                    let obj := pdf_dict_get_key (info d) i in
                    if pdf_is_name obj then keys ++ [pdf_to_name obj] else keys)
                 (seqZ 0 dictSize) keys)
      end
  end.

(** [Document::infoKey(key)] *)
Definition infoKey (key : string) : M QString :=
  d <- get_data ;;
  match mdoc d with
  | None => ret QString_null
  | Some _ =>
      loadInfoDict ;;
      d <- get_data ;;
      match info d with
      | None => ret QString_null
      | Some _ =>
          match pdf_dict_gets (info d) key with
          | Some obj =>
              let obj := pdf_resolve_indirect (Some obj) in
              if negb (pdf_is_string obj) then
                qWarning "info object not a string!" ;;
                ret QString_null
              else
                match pdf_new_utf8_from_pdf_string_obj obj with
                | Some value => ret (QString_text (fromUtf8 value))
                | None => ret QString_null
                end
          | None => ret QString_null
          end
      end
  end.

(** ** Outline *)

(** [new Outline(...)]: the object goes to the end of the free store and its
    index is the pointer. *)
Definition new_Outline (o : Outline) : M nat :=
  fun w => (length (store w),
            {| data := data w; lc_numeric := lc_numeric w;
               warnings := warnings w; store := store w ++ [o] |}).

(** Modelled from the spec: the default constructor [Outline()] of
    document.hpp; the root sentinel has no title, no link and no children. *)
Definition Outline_root : Outline :=
  {| m_title := QString_null; m_link := ""; m_children := [] |}.

(** [Outline::Outline(const fz_outline *out)] *)
Definition Outline_of (title uri : option string) : Outline :=
  {| m_title := match title with
                | Some t => QString_text (fromUtf8 t)
                | None => QString_null
                end;
     m_link := match uri with
               | Some u => u
               | None => ""
               end;
     m_children := [] |}.

(** Modelled from the spec: [Outline::appendChild] of document.hpp, which
    appends the child pointer to the parent's children. *)
Definition appendChild (item child : nat) : M unit :=
  fun w => (tt,
            {| data := data w; lc_numeric := lc_numeric w; warnings := warnings w;
               store := alter (fun o => {| m_title := m_title o; m_link := m_link o;
                                           m_children := m_children o ++ [child] |})
                              item (store w) |}).

(** [Data::convertOutline(out, item)]: the [for] loop over [out->next] is the
    second recursive call. *)
Fixpoint convertOutline (out : fz_outline) (item : nat) : M unit :=
  match out with
  | fz_null => ret tt
  | fz_node title uri down next =>
      child <- new_Outline (Outline_of title uri) ;;
      appendChild item child ;;
      convertOutline down child ;;
      convertOutline next item
  end.

(** [Document::outline()] *)
Definition outline : M (option nat) :=
  d <- get_data ;;
  let out := fz_load_outline (mdoc d) in
  match out with
  | fz_null => ret None
  | fz_node _ _ _ _ =>
      item <- new_Outline Outline_root ;;
      convertOutline out item ;;
      (* fz_drop_outline *)
      ret (Some item)
  end.

End Model.

(** ** [sscanf(buf, "PDF %d.%d", &major, &minor)]

    Written out from C11 7.21.6.2: an ordinary character of the format must
    be the next input character; white space in the format skips any amount
    of input white space; [%d] skips white space, then takes an optional
    sign and a non-empty run of decimal digits, and stores the number in an
    [int].  The result lists the values stored, in order: C's return value
    is its length (or EOF when the input ends before the first conversion).

    C leaves the stored value undefined when the number written does not fit
    an [int].  The C library this code is built against (glibc, where [long]
    has 64 bits) converts the digits as [strtol] does, which stops at
    [LONG_MIN] and [LONG_MAX], and stores the low 32 bits of that [long];
    [int_stored] is that rule, and the identity on every number that fits. *)

Definition isspace (c : ascii) : bool :=
  let n := nat_of_ascii c in
  (Nat.eqb n 32 || (Nat.leb 9 n && Nat.leb n 13))%bool.

Definition isdigit (c : ascii) : bool :=
  let n := nat_of_ascii c in (Nat.leb 48 n && Nat.leb n 57)%bool.

Definition digit_value (c : ascii) : Z := Z.of_nat (nat_of_ascii c) - 48.

Fixpoint skip_space (s : string) : string :=
  match s with
  | String c r => if isspace c then skip_space r else s
  | EmptyString => s
  end.

(** What [strtol] keeps of a number that does not fit a [long]. *)
Definition clamp_long (z : Z) : Z :=
  Z.max (- 2 ^ 63) (Z.min z (2 ^ 63 - 1)).

(** The [int] that [%d] stores for the number [z] written in the input: the
    low 32 bits, as a signed number, of the [long] that [strtol] returns. *)
Definition int_stored (z : Z) : Z :=
  (clamp_long z + 2 ^ 31) mod 2 ^ 32 - 2 ^ 31.

(** The digits at the head of [s], accumulated onto [acc]: the number as it
    is written, before it is stored. *)
Fixpoint scan_digits (acc : Z) (s : string) : Z * string :=
  match s with
  | String c r => if isdigit c then scan_digits (10 * acc + digit_value c) r
                  else (acc, s)
  | EmptyString => (acc, s)
  end.

Definition scan_unsigned (s : string) : option (Z * string) :=
  match s with
  | String c _ => if isdigit c then Some (scan_digits 0 s) else None
  | EmptyString => None
  end.

(** The conversion [%d], with the value it stores. *)
Definition scan_d (s : string) : option (Z * string) :=
  match skip_space s with
  | String c r =>
      if Ascii.eqb c "-" then
        match scan_unsigned r with
        | Some (n, r') => Some (int_stored (- n), r')
        | None => None
        end
      else if Ascii.eqb c "+" then
        match scan_unsigned r with
        | Some (n, r') => Some (int_stored n, r')
        | None => None
        end
      else
        match scan_unsigned (String c r) with
        | Some (n, r') => Some (int_stored n, r')
        | None => None
        end
  | EmptyString => None
  end.

(** An ordinary character of the format. *)
Definition scan_char (c : ascii) (s : string) : option string :=
  match s with
  | String c' r => if Ascii.eqb c c' then Some r else None
  | EmptyString => None
  end.

Definition sscanf_PDF_d_d (buf : string) : list Z :=
  match scan_char "P" buf with
  | None => []
  | Some s =>
  match scan_char "D" s with
  | None => []
  | Some s =>
  match scan_char "F" s with
  | None => []
  | Some s =>
  match scan_d (skip_space s) with
  | None => []
  | Some (major, s) =>
  match scan_char "." s with
  | None => [major]
  | Some s =>
  match scan_d s with
  | None => [major]
  | Some (minor, _) => [major; minor]
  end end end end end end.

(** A decimal numeral, from its digits, and the number it writes. *)
Fixpoint numeral (digits : list nat) : string :=
  match digits with
  | [] => EmptyString
  | d :: rest => String (ascii_of_nat (48 + d)) (numeral rest)
  end.

Definition numeral_value (digits : list nat) : Z :=
  fold_left (fun acc d => 10 * acc + Z.of_nat d) digits 0.

(** ** IEEE 754 arithmetic of [float(major + minor / 10.0)]

    [double] is binary64 and [float] is binary32, round to nearest even. *)

Definition double_of_int (n : Z) : spec_float := binary_normalize 53 1024 n 0 false.

Definition double_add : spec_float -> spec_float -> spec_float := SFadd 53 1024.
Definition double_div : spec_float -> spec_float -> spec_float := SFdiv 53 1024.

(** The conversion [float(x)] of a [double]. *)
Definition float_of_double (x : spec_float) : spec_float :=
  match x with
  | S754_finite s m e => binary_normalize 24 128 (cond_Zopp s (Zpos m)) e s
  | _ => x
  end.

(** The rational value of a finite number. *)
Definition SF2Q (x : spec_float) : Q :=
  match x with
  | S754_finite s m e => (inject_Z (cond_Zopp s (Zpos m)) * Qpower 2 e)%Q
  | _ => 0%Q
  end.

Definition is_finite (x : spec_float) : bool :=
  match x with
  | S754_finite _ _ _ | S754_zero _ => true
  | _ => false
  end.

(** The number [major + minor/10] that the version stands for. *)
Definition version_value (major minor : Z) : Q :=
  (inject_Z major + inject_Z minor / inject_Z 10)%Q.

(** The arithmetic of the source on the two integers. *)
Definition version_float (major minor : Z) : spec_float :=
  float_of_double
    (double_add (double_of_int major)
                (double_div (double_of_int minor) (double_of_int 10))).

(** The result is a number and lies within a relative error of [2^-24], half
    a unit in the last place of a [float], of [major + minor/10]. *)
Definition version_accurate (major minor : Z) : bool :=
  (is_finite (version_float major minor) &&
   Qle_bool (Qabs (SF2Q (version_float major minor) - version_value major minor))
            (version_value major minor * (1 # 16777216)))%bool.

Section Version.
Context {E : Engine} {QT : Qt}.

(** [Document::pdfVersion()] *)
Definition pdfVersion (w : World) : spec_float :=
  match mdoc (data w) with
  | None => S754_zero false
  | Some _ =>
      match fz_lookup_format (mdoc (data w)) with
      | Some buf =>
          match sscanf_PDF_d_d buf with
          | [major; minor] =>
              (* float(major + minor / 10.0) *)
              float_of_double
                (double_add (double_of_int major)
                            (double_div (double_of_int minor) (double_of_int 10)))
          | _ => S754_zero false
          end
      | None => S754_zero false
      end
  end.

End Version.

(** ** How the host drives a [Document]

    The states a [Document] goes through when the host follows the state
    machine of the life cycle: [load] is issued on a document whose handle is
    null (never opened, closed, or left by a failed open); every other
    method may be called at any time. *)

Section Lifecycle.
Context {E : Engine} {QT : Qt}.

(** A [Document] fresh from its constructor, in a process whose locale,
    log and free store are arbitrary. *)
Definition new_Document (lc : string) (ws : list string) (st : list Outline) : World :=
  {| data := Data_init; lc_numeric := lc; warnings := ws; store := st |}.

Inductive lifecycle : World -> Prop :=
| lifecycle_new lc ws st : lifecycle (new_Document lc ws st)
| lifecycle_load w fileName :
    lifecycle w -> mdoc (data w) = None -> lifecycle (snd (load fileName w))
| lifecycle_close w : lifecycle w -> lifecycle (snd (close w))
| lifecycle_unlock w password : lifecycle w -> lifecycle (snd (unlock password w))
| lifecycle_infoKeys w : lifecycle w -> lifecycle (snd (infoKeys w))
| lifecycle_infoKey w key : lifecycle w -> lifecycle (snd (infoKey key w))
| lifecycle_outline w : lifecycle w -> lifecycle (snd (outline w)).

(** [w] with its [Data] replaced. *)
Definition with_data (w : World) (d : Data) : World :=
  {| data := d; lc_numeric := lc_numeric w; warnings := warnings w; store := store w |}.

(** The page mode named by a PageMode entry, [current] when the entry is
    missing, not a name, or not one of the six names. *)
Definition mode_of (obj : option pdf_obj) (current : PageMode) : PageMode :=
  if bool_decide (is_Some obj) && pdf_is_name obj then
    let mode := pdf_to_name obj in
    if String.eqb mode "UseNone" then UseNone
    else if String.eqb mode "UseOutlines" then UseOutlines
    else if String.eqb mode "UseThumbs" then UseThumbs
    else if String.eqb mode "FullScreen" then FullScreen
    else if String.eqb mode "UseOC" then UseOC
    else if String.eqb mode "UseAttachments" then UseAttachments
    else current
  else current.

(** The page modes by name, as the data model lists them. *)
Definition PageMode_names : list (string * PageMode) :=
  [("UseNone", UseNone); ("UseOutlines", UseOutlines); ("UseThumbs", UseThumbs);
   ("FullScreen", FullScreen); ("UseOC", UseOC); ("UseAttachments", UseAttachments)].

(** The page mode a PageMode entry stands for: the default when the entry is
    absent, is not a name, or names none of the six modes. *)
Definition named_mode (obj : option pdf_obj) : PageMode :=
  match obj with
  | None => UseNone
  | Some _ =>
      if pdf_is_name obj then
        match assoc (pdf_to_name obj) PageMode_names with
        | Some m => m
        | None => UseNone
        end
      else UseNone
  end.

(** The page mode encoded in the trailer of the open document. *)
Definition trailer_mode (d : Data) : PageMode :=
  match dict "Root" d with
  | Some root => named_mode (pdf_dict_gets (Some root) "PageMode")
  | None => UseNone
  end.

(** The three queries return their empty results and leave the world as it
    is. *)
Definition queries_empty (w : World) (key : string) : Prop :=
  infoKeys w = ([], w) /\ infoKey key w = (QString_null, w) /\ outline w = (None, w).

(** [close] as the life-cycle description words it: everything is reset
    whatever the document was, and closing again changes nothing. *)
Definition close_fully_resets (w : World) : Prop :=
  let w' := snd (close w) in
  mdoc (data w') = None /\ stream (data w') = None /\
  Document_pageCount w' = 0 /\ Document_pageMode w' = UseNone /\
  info (data w') = None /\ isLocked w' = false /\
  snd (close w') = w'.

(** While the document handle is null the cached values are the defaults;
    while the document is locked the load step has not run; a document
    handle is never held without its stream. *)
Definition lifecycle_inv (d : Data) : Prop :=
  (mdoc d = None ->
     pageCount d = 0 /\ info d = None /\ pageMode d = UseNone /\ locked d = false) /\
  (locked d = true -> pageCount d = 0 /\ pageMode d = UseNone /\ mdoc d <> None) /\
  (mdoc d <> None -> stream d <> None) /\
  (info d = None \/ info d = dict "Info" d).

(** [unlock] called once for each password of a list, in order. *)
Fixpoint unlock_each (passwords : list string) : M (list bool) :=
  match passwords with
  | [] => ret []
  | p :: ps =>
      r <- unlock p ;;
      rs <- unlock_each ps ;;
      ret (r :: rs)
  end.

End Lifecycle.

(** ** Outline trees

    What [outline()] is meant to build, as a value: the tree read back from
    the free store, and the tree that mirrors the engine's list. *)

Inductive OutlineTree : Type :=
| OutlineNode (title : QString) (link : string) (children : list OutlineTree).

Section OutlineTrees.
Context {QT : Qt}.

(** What a child keeps of its engine node, after the wording of the outline
    builder: the title decoded from UTF-8 when the node has one, no title
    otherwise; the link URI when the node has one, no link otherwise. *)
Definition captured_title (title : option string) : QString :=
  match title with
  | Some t => QString_text (fromUtf8 t)
  | None => QString_null
  end.

Definition captured_link (uri : option string) : string :=
  match uri with
  | Some u => u
  | None => ""
  end.

(** The mirror of an engine sibling list, after the wording of the outline
    builder: each sibling, in list order, becomes one child carrying its
    optional title and optional link, and that child's own children mirror
    the sibling's nested list. *)
Fixpoint mirror (out : fz_outline) : list OutlineTree :=
  match out with
  | fz_null => []
  | fz_node title uri down next =>
      OutlineNode (captured_title title) (captured_link uri) (mirror down)
      :: mirror next
  end.

(** The nodes of an engine list in depth-first order: a node, then
    everything below it, then its later siblings. *)
Fixpoint preorder (out : fz_outline) : list (QString * string) :=
  match out with
  | fz_null => []
  | fz_node title uri down next =>
      (captured_title title, captured_link uri)
      :: preorder down ++ preorder next
  end.

(** Nesting depth of an engine list. *)
Fixpoint depth (out : fz_outline) : nat :=
  match out with
  | fz_null => 0
  | fz_node _ _ down next => Nat.max (S (depth down)) (depth next)
  end.

(** The tree below pointer [p], followed through at most [fuel] levels. *)
Fixpoint read_tree (fuel : nat) (st : list Outline) (p : nat) : option OutlineTree :=
  match fuel with
  | O => None
  | S fuel' =>
      match st !! p with
      | None => None
      | Some o =>
          match mapM (read_tree fuel' st) (m_children o) with
          | None => None
          | Some cs => Some (OutlineNode (m_title o) (m_link o) cs)
          end
      end
  end.

(** [mirrors st lo out ps]: in the store [st], the pointers [ps] lead to
    objects that mirror the engine list [out], all of them at index [lo] or
    above. *)
Inductive mirrors (st : list Outline) (lo : nat) : fz_outline -> list nat -> Prop :=
| mirrors_null : mirrors st lo fz_null []
| mirrors_node title uri down next p ps o :
    st !! p = Some o ->
    (lo <= p)%nat ->
    m_title o = captured_title title ->
    m_link o = captured_link uri ->
    mirrors st lo down (m_children o) ->
    mirrors st lo next ps ->
    mirrors st lo (fz_node title uri down next) (p :: ps).

Definition label (o : Outline) : QString * string := (m_title o, m_link o).

Definition add_children (ps : list nat) (o : Outline) : Outline :=
  {| m_title := m_title o; m_link := m_link o; m_children := m_children o ++ ps |}.

End OutlineTrees.

(** The text after a numeral does not go on with a digit. *)
Definition no_digit_ahead (s : string) : Prop :=
  match s with
  | String c _ => isdigit c = false
  | EmptyString => True
  end.

(** An optional sign as it is written, and the number it makes of the
    digits after it. *)
Definition sign_text (sign : option bool) : string :=
  match sign with
  | None => ""
  | Some false => "+"
  | Some true => "-"
  end.

Definition signed (sign : option bool) (n : Z) : Z :=
  match sign with
  | Some true => - n
  | _ => n
  end.

(** The strings that the format "PDF %d.%d" reads two integers from, said
    on the text itself: "PDF", any white space, an optionally signed decimal
    numeral, a dot, any white space, a second optionally signed numeral, and
    then anything that does not go on with a digit.  [major] and [minor] are
    the two numbers as stored in an [int]. *)
Definition reads_PDF_d_d (buf : string) (major minor : Z) : Prop :=
  exists (sp1 : list ascii) (sign1 : option bool) (ds1 : list nat)
         (sp2 : list ascii) (sign2 : option bool) (ds2 : list nat) (rest : string),
    buf = ("PDF" ++ string_of_list_ascii sp1 ++ sign_text sign1 ++ numeral ds1
           ++ "." ++ string_of_list_ascii sp2 ++ sign_text sign2 ++ numeral ds2
           ++ rest)%string /\ (
    Forall (fun c => isspace c = true) sp1 /\ (
    Forall (fun c => isspace c = true) sp2 /\ (
    ds1 <> [] /\ (ds2 <> [] /\ (
    Forall (fun d => (d < 10)%nat) ds1 /\ (Forall (fun d => (d < 10)%nat) ds2 /\ (
    no_digit_ahead rest /\ (
    major = int_stored (signed sign1 (numeral_value ds1)) /\ (
    minor = int_stored (signed sign2 (numeral_value ds2))))))))))).

(** ** Releasing an outline tree *)

(** [Outline::~Outline()], as run by [delete p]: [qDeleteAll(m_children)]
    deletes the children in list order, each through its own destructor, and
    then the object itself is freed.  The result lists the pointers freed, in
    the order they are freed; [fuel] bounds the nesting that is followed. *)
Fixpoint delete_Outline (fuel : nat) (st : list Outline) (p : nat) : option (list nat) :=
  match fuel with
  | O => None
  | S fuel' =>
      match st !! p with
      | None => None
      | Some o =>
          match mapM (delete_Outline fuel' st) (m_children o) with
          | None => None
          | Some freed => Some (concat freed ++ [p])
          end
      end
  end.

(** ** Where the outline builder puts its objects *)

(** Number of nodes of an engine list, nested ones included. *)
Fixpoint size (out : fz_outline) : nat :=
  match out with
  | fz_null => 0
  | fz_node _ _ down next => S (size down + size next)
  end.

(** The pointers of the siblings of [out] when its objects are created from
    index [base] on: a sibling, everything below it, then the next sibling. *)
Fixpoint sibling_ptrs (base : nat) (out : fz_outline) : list nat :=
  match out with
  | fz_null => []
  | fz_node _ _ down next => base :: sibling_ptrs (base + S (size down)) next
  end.

(** The pointers of [out] in the order in which [delete] frees them. *)
Fixpoint postorder_ptrs (base : nat) (out : fz_outline) : list nat :=
  match out with
  | fz_null => []
  | fz_node _ _ down next =>
      postorder_ptrs (S base) down ++ [base]
      ++ postorder_ptrs (base + S (size down)) next
  end.

Section Layout.
Context {QT : Qt}.

(** The objects built for [out], in store order, when the first of them has
    index [base]. *)
Fixpoint layout (base : nat) (out : fz_outline) : list Outline :=
  match out with
  | fz_null => []
  | fz_node title uri down next =>
      {| m_title := captured_title title;
         m_link := captured_link uri;
         m_children := sibling_ptrs (S base) down |}
      :: layout (S base) down ++ layout (base + S (size down)) next
  end.

(** The store [st] holds the objects of [out] from index [base] on. *)
Definition stored (st : list Outline) (base : nat) (out : fz_outline) : Prop :=
  forall k o, layout base out !! k = Some o -> st !! (base + k)%nat = Some o.

End Layout.

Section Readouts.
Context {E : Engine} {QT : Qt}.

(** The names of the name-typed keys of a dictionary, in index order. *)
Definition info_names (dictionary : option pdf_obj) : list string :=
  map pdf_to_name
      (List.filter pdf_is_name
         (map (pdf_dict_get_key dictionary) (seqZ 0 (pdf_dict_len dictionary)))).

(** What the cached values of a [Document] are, by the state of its handles:
    the defaults while the document handle is null or the document is
    locked, the values of the current document once the load step has run. *)
Definition cached_values_current (d : Data) : Prop :=
  match mdoc d with
  | None =>
      pageCount d = 0 /\ info d = None /\ pageMode d = UseNone /\ locked d = false
  | Some _ =>
      stream d <> None /\
      (info d = None \/ info d = dict "Info" d) /\
      if locked d then
        fz_needs_password (mdoc d) = true /\ pageCount d = 0 /\ pageMode d = UseNone
      else
        match dict "Root" d with
        | Some _ => pageCount d = fz_count_pages (mdoc d) /\ pageMode d = trailer_mode d
        | None => pageCount d = 0 /\ pageMode d = UseNone
        end
  end.

(** What [infoKey] answers from a dictionary, and what it logs on the way. *)
Definition info_answer (key : string) (dictionary : option pdf_obj)
  : QString * list string :=
  match dictionary with
  | None => (QString_null, [])
  | Some _ =>
      match pdf_dict_gets dictionary key with
      | Some obj =>
          if pdf_is_string (pdf_resolve_indirect (Some obj)) then
            (match pdf_new_utf8_from_pdf_string_obj (pdf_resolve_indirect (Some obj)) with
             | Some value => QString_text (fromUtf8 value)
             | None => QString_null
             end, [])
          else (QString_null, ["info object not a string!"])
      | None => (QString_null, [])
      end
  end.

(** [w] with more lines in the log. *)
Definition log_all (lines : list string) (w : World) : World :=
  {| data := data w; lc_numeric := lc_numeric w;
     warnings := warnings w ++ lines; store := store w |}.

End Readouts.

(** ** A small engine to run the model on *)

Module Sample.

(** The engine's tagged objects. *)
Inductive obj : Type :=
| Name (s : string)
| Str (s : string)
| Num (n : Z)
| Dict (entries : list (string * obj))
| Ref (n : nat).

Definition xref (n : nat) : option obj :=
  match n with
  | 1%nat => Some (Str "A. Author")
  | 2%nat => Some (Num 42)
  | _ => None
  end.

Definition resolve (o : option obj) : option obj :=
  match o with
  | Some (Ref n) => xref n
  | _ => o
  end.

Definition dict_gets (o : option obj) (key : string) : option obj :=
  match resolve o with
  | Some (Dict entries) => assoc key entries
  | _ => None
  end.

Definition dict_len (o : option obj) : Z :=
  match resolve o with
  | Some (Dict entries) => Z.of_nat (length entries)
  | _ => 0
  end.

Definition dict_get_key (o : option obj) (i : Z) : option obj :=
  match resolve o with
  | Some (Dict entries) =>
      if (i <? 0)%Z then None
      else match nth_error entries (Z.to_nat i) with
           | Some (k, _) => Some (Name k)
           | None => None
           end
  | _ => None
  end.

Definition is_name (o : option obj) : bool :=
  match resolve o with Some (Name _) => true | _ => false end.
Definition to_name (o : option obj) : string :=
  match resolve o with Some (Name s) => s | _ => "" end.
Definition is_string (o : option obj) : bool :=
  match resolve o with Some (Str _) => true | _ => false end.
Definition utf8_of (o : option obj) : option string :=
  match resolve o with Some (Str s) => Some s | _ => Some "" end.

(** Four files: a plain one, an encrypted one, an encrypted one whose trailer
    has no Root, and one the engine cannot parse. *)
Definition open_file (name : string) : option nat :=
  if String.eqb name "plain.pdf" then Some 1%nat
  else if String.eqb name "secret.pdf" then Some 2%nat
  else if String.eqb name "noroot.pdf" then Some 3%nat
  else if String.eqb name "broken.pdf" then Some 4%nat
  else None.

Definition open_document (s : option nat) : fz_result (option nat) :=
  match s with
  | Some 1%nat => fz_ok (Some 1%nat)
  | Some 2%nat => fz_ok (Some 2%nat)
  | Some 3%nat => fz_ok (Some 3%nat)
  | _ => fz_throw
  end.

Definition needs_password (d : option nat) : bool :=
  match d with
  | Some 2%nat | Some 3%nat => true
  | _ => false
  end.

Definition authenticate (d : option nat) (password : string) : bool :=
  match d with
  | Some 2%nat => String.eqb password "sesame"
  | Some 3%nat => String.eqb password "pw"
  | _ => true
  end.

Definition count_pages (d : option nat) : Z :=
  match d with
  | Some 1%nat => 3
  | Some 2%nat => 5
  | _ => 0
  end.

Definition trailer (d : option nat) : option obj :=
  match d with
  | Some 1%nat =>
      Some (Dict [("Root", Dict [("PageMode", Name "UseOutlines")]);
                  ("Info", Dict [("Title", Str "Report"); ("Author", Ref 1);
                                 ("Pages", Num 3); ("Answer", Ref 2)])])
  | Some 2%nat => Some (Dict [("Root", Dict [("PageMode", Name "TwoColumn")])])
  | Some 3%nat => Some (Dict [])
  | _ => None
  end.

Definition bookmarks : fz_outline :=
  fz_node (Some "Chapter 1") (Some "#1")
    (fz_node (Some "Section 1.1") (Some "#2") fz_null
       (fz_node (Some "Section 1.2") None fz_null fz_null))
    (fz_node None (Some "#9") fz_null fz_null).

Definition load_outline (d : option nat) : fz_outline :=
  match d with
  | Some 1%nat => bookmarks
  | _ => fz_null
  end.

Definition lookup_format (d : option nat) : option string :=
  match d with
  | Some 1%nat => Some "PDF 1.7"
  | Some 2%nat => Some "PDF 2"
  | _ => None
  end.

#[export] Instance engine : Engine := {|
  fz_stream := nat;
  fz_document := nat;
  pdf_obj := obj;
  fz_open_file := open_file;
  fz_open_document_with_stream := open_document;
  fz_needs_password := needs_password;
  fz_authenticate_password := authenticate;
  fz_count_pages := count_pages;
  fz_load_outline := load_outline;
  fz_lookup_format := lookup_format;
  pdf_trailer := trailer;
  pdf_dict_gets := dict_gets;
  pdf_dict_len := dict_len;
  pdf_dict_get_key := dict_get_key;
  pdf_resolve_indirect := resolve;
  pdf_is_name := is_name;
  pdf_to_name := to_name;
  pdf_is_string := is_string;
  pdf_new_utf8_from_pdf_string_obj := utf8_of
|}.

#[export] Instance qt : Qt := {| fromUtf8 := fun s => s; encodeName := fun s => s |}.

(** A new [Document] in a process running under a German locale. *)
Definition w0 : World := new_Document "de_DE.UTF-8" [] [].

(** The four files, each loaded into a new [Document]. *)
Definition plain : World := snd (load "plain.pdf" w0).
Definition secret : World := snd (load "secret.pdf" w0).
Definition noroot : World := snd (load "noroot.pdf" w0).
Definition broken : World := snd (load "broken.pdf" w0).

End Sample.

(** * Properties *)

Section Properties.
Context {E : Engine} {QT : Qt}.

(** Unfolds the monadic plumbing of a method. *)
Ltac run :=
  cbv [bind ret get_data modify_data set_mdoc set_stream set_pageCount set_info
       set_pageMode set_locked qWarning setlocale new_Outline appendChild M State];
  cbn [data lc_numeric warnings store mdoc stream pageCount info pageMode locked
       fst snd].

(** ** Shape of the results of [Data::load] *)

Lemma Data_load_eq (w : World) :
  Data_load w =
  match dict "Root" (data w) with
  | None => (false, w)
  | Some root =>
      (true,
       {| data := {| mdoc := mdoc (data w); stream := stream (data w);
                     pageCount := fz_count_pages (mdoc (data w));
                     info := info (data w);
                     pageMode := mode_of (pdf_dict_gets (Some root) "PageMode")
                                         (pageMode (data w));
                     locked := locked (data w) |};
          lc_numeric := lc_numeric w; warnings := warnings w; store := store w |})
  end.
Proof.
  unfold Data_load, mode_of. run.
  destruct (dict "Root" (data w)) as [root|]; [|reflexivity].
  destruct w as [[md sm pc inf pm lk] lc ws st]; cbn.
  destruct (bool_decide _ && pdf_is_name _); [|reflexivity].
  repeat (match goal with |- context [String.eqb ?a ?b] => destruct (String.eqb a b) end;
          [reflexivity|]).
  reflexivity.
Qed.

Lemma Data_load_frame (w : World) :
  let w' := snd (Data_load w) in
  mdoc (data w') = mdoc (data w) /\ stream (data w') = stream (data w) /\
  info (data w') = info (data w) /\ locked (data w') = locked (data w) /\
  lc_numeric w' = lc_numeric w /\ warnings w' = warnings w /\ store w' = store w.
Proof.
  rewrite Data_load_eq. destruct (dict "Root" (data w)); cbn; tauto.
Qed.

Lemma Data_load_false (w : World) :
  fst (Data_load w) = false -> Data_load w = (false, w).
Proof.
  rewrite Data_load_eq. destruct (dict "Root" (data w)); cbn; congruence.
Qed.

(** ** The locale during [load] *)

Lemma load_locale (w : World) (fileName : string) :
  lc_numeric (snd (load fileName w)) =
  match fz_open_file (encodeName fileName) with
  | Some _ => "C"
  | None => lc_numeric w
  end.
Proof.
  unfold load. run.
  destruct (fz_open_file (encodeName fileName)) as [s|]; [|reflexivity].
  destruct (fz_open_document_with_stream (Some s)) as [[doc|]|]; try reflexivity.
  cbn -[Data_load]. destruct (negb (fz_needs_password (Some doc))); [|reflexivity].
  match goal with |- context [Data_load ?x] =>
    pose proof (Data_load_frame x) as F; destruct (Data_load x) as [[] w'] end;
  cbn in *; tauto.
Qed.

(** C1. When the stream opens and the engine throws while opening the
    document, [load] returns false through the [fz_catch] block, which leaves
    before the locale is put back: the process is left in the "C" locale
    whatever the locale was before the call. *)
Theorem load_parse_failure_locale (w : World) (fileName : string) (s : fz_stream)
  (Hopen : fz_open_file (encodeName fileName) = Some s)
  (Hthrow : fz_open_document_with_stream (Some s) = fz_throw) :
  fst (load fileName w) = false /\ lc_numeric (snd (load fileName w)) = "C".
Proof.
  split.
  - unfold load. run. rewrite Hopen, Hthrow. reflexivity.
  - rewrite load_locale, Hopen. reflexivity.
Qed.

(** ** Handles after a failed open *)

(** C3. When the stream opens and the engine throws while opening the
    document, [load] leaves the stream handle set and the document handle
    null, and a following [close] does not release the stream: a state of
    the life cycle in which the two handles are not null together. *)
Theorem load_parse_failure_stream (w : World) (fileName : string) (s : fz_stream)
  (Hl : lifecycle w) (Hclosed : mdoc (data w) = None)
  (Hopen : fz_open_file (encodeName fileName) = Some s)
  (Hthrow : fz_open_document_with_stream (Some s) = fz_throw) :
  let w' := snd (load fileName w) in
  lifecycle w' /\ lifecycle (snd (close w')) /\
  mdoc (data w') = None /\ stream (data w') = Some s /\
  mdoc (data (snd (close w'))) = None /\ stream (data (snd (close w'))) = Some s.
Proof.
  cbv zeta. split; [|split].
  - apply lifecycle_load; assumption.
  - apply lifecycle_close, lifecycle_load; assumption.
  - unfold load, close. run. rewrite Hopen, Hthrow. cbn. auto.
Qed.

(** ** [close] *)

Lemma with_data_same (w : World) : with_data w (data w) = w.
Proof. destruct w; reflexivity. Qed.

Lemma close_eq (w : World) :
  close w = (tt, match mdoc (data w) with
                 | Some _ => with_data w Data_init
                 | None => w
                 end).
Proof.
  unfold close. run. destruct (mdoc (data w)); reflexivity.
Qed.

Lemma close_closed (w : World) : mdoc (data (snd (close w))) = None.
Proof.
  rewrite close_eq. cbn. destruct (mdoc (data w)) eqn:Hm; [reflexivity | exact Hm].
Qed.

Lemma close_twice (w : World) : close (snd (close w)) = (tt, snd (close w)).
Proof.
  rewrite (close_eq (snd (close w))), close_closed. reflexivity.
Qed.

(** ** [unlock] *)

Lemma unlock_eq (password : string) (w : World) :
  unlock password w =
  if negb (locked (data w)) then (false, w)
  else if negb (fz_authenticate_password (mdoc (data w)) password) then (false, w)
  else
    let w1 := with_data w {| mdoc := mdoc (data w); stream := stream (data w);
                             pageCount := pageCount (data w); info := info (data w);
                             pageMode := pageMode (data w); locked := false |} in
    (fst (Data_load w1), snd (Data_load w1)).
Proof.
  unfold unlock. run.
  destruct (negb (locked (data w))); [reflexivity|].
  destruct (negb (fz_authenticate_password _ _)); [reflexivity|].
  cbn -[Data_load]. unfold with_data.
  match goal with |- context [Data_load ?x] => destruct (Data_load x) as [[] ?] end;
  reflexivity.
Qed.

Lemma unlock_not_locked (password : string) (w : World) :
  locked (data w) = false -> unlock password w = (false, w).
Proof. intros H. rewrite unlock_eq, H. reflexivity. Qed.

Lemma unlock_rejected (password : string) (w : World) :
  fz_authenticate_password (mdoc (data w)) password = false ->
  unlock password w = (false, w).
Proof.
  intros H. rewrite unlock_eq, H. destruct (negb (locked (data w))); reflexivity.
Qed.

Lemma unlock_each_rejected (passwords : list string) (w : World) :
  Forall (fun p => fz_authenticate_password (mdoc (data w)) p = false) passwords ->
  unlock_each passwords w = (map (fun _ => false) passwords, w).
Proof.
  induction 1 as [|p ps Hp _ IH]; [reflexivity|].
  cbn [unlock_each map]. unfold bind at 1. rewrite (unlock_rejected _ _ Hp).
  unfold bind at 1. rewrite IH. reflexivity.
Qed.

(** ** The Info dictionary cache *)

Lemma loadInfoDict_eq (w : World) :
  loadInfoDict w =
  (tt, match info (data w) with
       | Some _ => w
       | None => with_data w {| mdoc := mdoc (data w); stream := stream (data w);
                                pageCount := pageCount (data w);
                                info := dict "Info" (data w);
                                pageMode := pageMode (data w);
                                locked := locked (data w) |}
       end).
Proof.
  unfold loadInfoDict. run. destruct (info (data w)); reflexivity.
Qed.

Lemma loadInfoDict_frame (w : World) :
  let w' := snd (loadInfoDict w) in
  mdoc (data w') = mdoc (data w) /\ stream (data w') = stream (data w) /\
  pageCount (data w') = pageCount (data w) /\ pageMode (data w') = pageMode (data w) /\
  locked (data w') = locked (data w) /\
  lc_numeric w' = lc_numeric w /\ warnings w' = warnings w /\ store w' = store w.
Proof.
  rewrite loadInfoDict_eq. destruct (info (data w)); cbn; tauto.
Qed.

Lemma loadInfoDict_info (w : World) :
  let w' := snd (loadInfoDict w) in
  info (data w') = info (data w) \/ info (data w') = dict "Info" (data w).
Proof.
  rewrite loadInfoDict_eq. destruct (info (data w)) eqn:Hi; cbn; auto.
Qed.

(** [infoKeys] and [infoKey] change at most the cached Info reference and
    the log, and nothing at all on a null document handle. *)
Lemma infoKeys_frame (w : World) :
  let w' := snd (infoKeys w) in
  mdoc (data w') = mdoc (data w) /\ stream (data w') = stream (data w) /\
  pageCount (data w') = pageCount (data w) /\ pageMode (data w') = pageMode (data w) /\
  locked (data w') = locked (data w) /\
  (info (data w') = info (data w) \/ info (data w') = dict "Info" (data w)) /\
  (mdoc (data w) = None -> w' = w).
Proof.
  unfold infoKeys. run. destruct (mdoc (data w)) eqn:Hm; [|cbn; tauto].
  pose proof (loadInfoDict_frame w) as F. pose proof (loadInfoDict_info w) as G.
  destruct (loadInfoDict w) as [[] w1]; cbn in F, G |- *.
  destruct (info (data w1)) eqn:Hi1; cbn; intuition congruence.
Qed.

Lemma infoKey_frame (key : string) (w : World) :
  let w' := snd (infoKey key w) in
  mdoc (data w') = mdoc (data w) /\ stream (data w') = stream (data w) /\
  pageCount (data w') = pageCount (data w) /\ pageMode (data w') = pageMode (data w) /\
  locked (data w') = locked (data w) /\
  (info (data w') = info (data w) \/ info (data w') = dict "Info" (data w)) /\
  (mdoc (data w) = None -> w' = w).
Proof.
  unfold infoKey. run. destruct (mdoc (data w)) eqn:Hm; [|cbn; tauto].
  pose proof (loadInfoDict_frame w) as F. pose proof (loadInfoDict_info w) as G.
  destruct (loadInfoDict w) as [[] w1]; cbn in F, G |- *.
  destruct (info (data w1)) eqn:Hi1; [|cbn; intuition congruence].
  destruct (pdf_dict_gets _ key); [|cbn; intuition congruence].
  destruct (negb (pdf_is_string _)); [cbn; intuition congruence|].
  destruct (pdf_new_utf8_from_pdf_string_obj _); cbn; intuition congruence.
Qed.

(** ** The outline builder *)

Lemma add_children_nil (o : Outline) : add_children [] o = o.
Proof. destruct o. unfold add_children. cbn. rewrite app_nil_r. reflexivity. Qed.

Lemma add_children_app (ps qs : list nat) (o : Outline) :
  add_children qs (add_children ps o) = add_children (ps ++ qs) o.
Proof. unfold add_children. cbn. rewrite app_assoc. reflexivity. Qed.

Lemma mirrors_weaken (st : list Outline) (lo lo' : nat) (out : fz_outline) (ps : list nat) :
  (lo' <= lo)%nat -> mirrors st lo out ps -> mirrors st lo' out ps.
Proof.
  intros Hle. induction 1 as [|title uri down next p ps o Hp Hlo Ht Hu _ IHd _ IHn].
  - constructor.
  - econstructor; eauto. lia.
Qed.

(** A store that agrees with [st] from [lo] up to the end of [st] holds the
    same mirrored trees. *)
Lemma mirrors_frame (st st' : list Outline) (lo : nat) (out : fz_outline) (ps : list nat) :
  (forall i, (lo <= i)%nat -> (i < length st)%nat -> st' !! i = st !! i) ->
  mirrors st lo out ps -> mirrors st' lo out ps.
Proof.
  intros Hsame. induction 1 as [|title uri down next p ps o Hp Hlo Ht Hu _ IHd _ IHn].
  - constructor.
  - econstructor; eauto.
    rewrite Hsame; [exact Hp | exact Hlo | eapply lookup_lt_Some; exact Hp].
Qed.

Lemma read_tree_mirrors (st : list Outline) (lo : nat) (out : fz_outline) (ps : list nat) :
  mirrors st lo out ps ->
  forall fuel, (depth out <= fuel)%nat -> mapM (read_tree fuel st) ps = Some (mirror out).
Proof.
  induction 1 as [|title uri down next p ps o Hp Hlo Ht Hu _ IHd _ IHn];
    intros fuel Hfuel; [reflexivity|].
  cbn [depth] in Hfuel.
  destruct fuel as [|fuel']; [lia|].
  change (mapM (read_tree (S fuel') st) (p :: ps))
    with (read_tree (S fuel') st p ≫= λ y, mapM (read_tree (S fuel') st) ps ≫= λ k, mret (y :: k)).
  rewrite (IHn (S fuel')) by lia.
  cbn [read_tree]. rewrite Hp, (IHd fuel') by lia.
  cbn. rewrite Ht, Hu. reflexivity.
Qed.

Lemma label_alter_add_children (ps : list nat) (item : nat) (st : list Outline) :
  map label (alter (add_children ps) item st) = map label st.
Proof.
  revert item. induction st as [|o st IH]; intros [|item]; cbn; try reflexivity.
  f_equal. apply IH.
Qed.

(** What [convertOutline] does to the world: nothing outside the free store;
    old objects other than [item] are untouched; [item] gains the pointers
    [ps], which mirror [out] in fresh objects; objects are created in
    depth-first order. *)
Lemma convertOutline_spec (out : fz_outline) :
  forall (item : nat) (w : World),
  (item < length (store w))%nat ->
  let w' := snd (convertOutline out item w) in
  data w' = data w /\ lc_numeric w' = lc_numeric w /\ warnings w' = warnings w /\
  (length (store w) <= length (store w'))%nat /\
  (forall i, (i < length (store w))%nat -> i <> item -> store w' !! i = store w !! i) /\
  map label (store w') = map label (store w) ++ preorder out /\
  exists ps, store w' !! item = add_children ps <$> store w !! item /\
             mirrors (store w') (length (store w)) out ps.
Proof.
  induction out as [|title uri down IHd next IHn]; intros item w Hitem.
  - cbn. repeat split; auto.
    + rewrite app_nil_r. reflexivity.
    + exists []. split; [|constructor].
      destruct (store w !! item); cbn; [rewrite add_children_nil|]; reflexivity.
  - cbn [convertOutline]. run.
    set (child := length (store w)).
    set (c0 := Outline_of title uri).
    set (w2 := {| data := data w; lc_numeric := lc_numeric w; warnings := warnings w;
                  store := alter (fun o => {| m_title := m_title o; m_link := m_link o;
                                              m_children := m_children o ++ [child] |})
                                 item (store w ++ [c0]) |}).
    change (fun o => {| m_title := m_title o; m_link := m_link o;
                        m_children := m_children o ++ [child] |})
      with (add_children [child]) in w2.
    assert (Hlen2 : length (store w2) = S child).
    { subst w2. cbn. rewrite length_alter, length_app. cbn. lia. }
    destruct (IHd child w2) as (Hd1 & Hd2 & Hd3 & Hd4 & Hd5 & Hd6 & psd & Hd7 & Hd8);
      [lia|].
    destruct (convertOutline down child w2) as [[] w3]. cbn [snd] in *.
    destruct (IHn item w3) as (Hn1 & Hn2 & Hn3 & Hn4 & Hn5 & Hn6 & psn & Hn7 & Hn8);
      [lia|].
    destruct (convertOutline next item w3) as [[] w4]. cbn [snd] in *.
    assert (Hne : item <> child) by lia.
    assert (Hchild2 : store w2 !! child = Some c0).
    { subst w2. cbn. rewrite list_lookup_alter_ne by exact Hne.
      subst child. apply list_lookup_middle. reflexivity. }
    assert (Hitem2 : store w2 !! item = add_children [child] <$> store w !! item).
    { subst w2. cbn. rewrite list_lookup_alter_eq, lookup_app_l by lia. reflexivity. }
    repeat split.
    + rewrite Hn1, Hd1. reflexivity.
    + rewrite Hn2, Hd2. reflexivity.
    + rewrite Hn3, Hd3. reflexivity.
    + lia.
    + intros i Hi Hii. rewrite Hn5 by lia. rewrite Hd5 by lia.
      subst w2. cbn. rewrite list_lookup_alter_ne by auto.
      apply lookup_app_l. exact Hi.
    + rewrite Hn6, Hd6. subst w2. cbn [store].
      rewrite label_alter_add_children, map_app. cbn. rewrite <- !app_assoc. reflexivity.
    + exists (child :: psn). split.
      * rewrite Hn7, Hd5, Hitem2 by lia.
        destruct (store w !! item); cbn; [|reflexivity].
        rewrite add_children_app. reflexivity.
      * assert (Hchild4 : store w4 !! child = Some (add_children psd c0)).
        { rewrite Hn5 by lia. rewrite Hd7, Hchild2. reflexivity. }
        eapply mirrors_node; [exact Hchild4 | reflexivity | reflexivity | reflexivity | |].
        -- cbn. apply (mirrors_weaken _ (length (store w2))); [lia|].
           eapply mirrors_frame; [|exact Hd8].
           intros i Hlo Hhi. apply Hn5; lia.
        -- apply (mirrors_weaken _ (length (store w3))); [lia|]. exact Hn8.
Qed.

Lemma outline_absent (w : World) :
  fz_load_outline (mdoc (data w)) = fz_null -> outline w = (None, w).
Proof. intros H. unfold outline. run. rewrite H. reflexivity. Qed.

Lemma outline_frame (w : World) :
  let w' := snd (outline w) in
  data w' = data w /\ lc_numeric w' = lc_numeric w /\ warnings w' = warnings w.
Proof.
  unfold outline. run.
  destruct (fz_load_outline (mdoc (data w))) as [|title uri down next] eqn:Hout;
    [cbn; auto|].
  match goal with |- context [convertOutline ?o ?i ?x] =>
    pose proof (convertOutline_spec o i x) as H; destruct (convertOutline o i x) as [[] w'] end.
  cbn in H |- *. rewrite length_app in H. cbn in H.
  destruct H as (H1 & H2 & H3 & _); [lia|]. auto.
Qed.

(** C6. [outline()] returns no tree, and changes nothing, when the engine has
    no outline.  Otherwise it returns a new root object without title or
    link; read back from the free store, the tree below the root is the
    mirror of the engine's list (one child per sibling in list order, each
    with its optional title and link and the mirror of its nested list), and
    the objects were created in depth-first order.  Nothing else changes. *)
Theorem outline_mirrors_engine (w : World) :
  match fz_load_outline (mdoc (data w)) with
  | fz_null => outline w = (None, w)
  | fz_node _ _ _ _ as out =>
      let root := length (store w) in
      exists w',
        outline w = (Some root, w') /\
        data w' = data w /\ lc_numeric w' = lc_numeric w /\ warnings w' = warnings w /\
        (forall i, (i < root)%nat -> store w' !! i = store w !! i) /\
        read_tree (S (depth out)) (store w') root
          = Some (OutlineNode QString_null "" (mirror out)) /\
        map label (store w') = map label (store w) ++ (QString_null, "") :: preorder out
  end.
Proof.
  destruct (fz_load_outline (mdoc (data w))) as [|title uri down next] eqn:Hout.
  - apply outline_absent. exact Hout.
  - unfold outline. run. rewrite Hout. cbv beta iota.
    set (out := fz_node title uri down next) in *.
    set (w1 := {| data := data w; lc_numeric := lc_numeric w; warnings := warnings w;
                  store := store w ++ [Outline_root] |}).
    pose proof (convertOutline_spec out (length (store w)) w1) as H.
    destruct (convertOutline out (length (store w)) w1) as [[] w'].
    cbn [snd] in H. subst w1. cbn [store data lc_numeric warnings] in H.
    rewrite length_app in H. cbn [length] in H.
    destruct H as (H1 & H2 & H3 & H4 & H5 & H6 & ps & H7 & H8); [lia|].
    exists w'. repeat split; auto.
    + intros i Hi. rewrite H5 by lia. apply lookup_app_l. exact Hi.
    + rewrite list_lookup_middle in H7 by reflexivity. cbn in H7.
      cbn [read_tree]. rewrite H7. cbn [m_children].
      rewrite (read_tree_mirrors _ _ _ _ H8) by lia. reflexivity.
    + rewrite H6, map_app. cbn. rewrite <- app_assoc. reflexivity.
Qed.

(** ** Invariants of the life cycle *)

Lemma load_inv (w : World) (fileName : string) :
  lifecycle_inv (data w) -> mdoc (data w) = None ->
  lifecycle_inv (data (snd (load fileName w))).
Proof.
  intros (Hc & _ & _) Hm. destruct (Hc Hm) as (Hpc & Hinfo & Hpm & Hlk).
  unfold load. run.
  destruct (fz_open_file (encodeName fileName)) as [s|].
  2:{ cbn. unfold lifecycle_inv. cbn. rewrite Hm, Hlk. intuition congruence. }
  destruct (fz_open_document_with_stream (Some s)) as [[doc|]|].
  - cbn -[Data_load]. destruct (fz_needs_password (Some doc)) eqn:Hneed; cbn -[Data_load].
    + unfold lifecycle_inv. cbn. intuition congruence.
    + rewrite Data_load_eq. cbn.
      destruct (dict "Root" _);
        match goal with |- context [if ?b then _ else _] => cbn end;
        unfold lifecycle_inv; cbn; intuition congruence.
  - cbn. unfold lifecycle_inv. cbn. rewrite Hlk. intuition congruence.
  - cbn. unfold lifecycle_inv. cbn. rewrite Hlk. intuition congruence.
Qed.

Lemma close_inv (w : World) :
  lifecycle_inv (data w) -> lifecycle_inv (data (snd (close w))).
Proof.
  intros H. rewrite close_eq. cbn. destruct (mdoc (data w)); [|exact H].
  unfold lifecycle_inv. cbn. intuition congruence.
Qed.

Lemma unlock_inv (password : string) (w : World) :
  lifecycle_inv (data w) -> lifecycle_inv (data (snd (unlock password w))).
Proof.
  intros H. rewrite unlock_eq.
  destruct (negb (locked (data w))) eqn:Hlk; [exact H|].
  destruct (negb (fz_authenticate_password _ _)); [exact H|].
  apply negb_false_iff in Hlk. destruct H as (_ & Hl & Hs).
  destruct (Hl Hlk) as (Hpc & Hpm & Hm).
  cbn -[Data_load]. rewrite Data_load_eq. cbn.
  destruct (dict "Root" _); unfold lifecycle_inv; cbn; intuition congruence.
Qed.

Lemma dict_mdoc (key : string) (d d' : Data) :
  mdoc d' = mdoc d -> dict key d' = dict key d.
Proof. unfold dict. intros ->. reflexivity. Qed.

Lemma frame_inv (d d' : Data) :
  mdoc d' = mdoc d -> stream d' = stream d -> pageCount d' = pageCount d ->
  pageMode d' = pageMode d -> locked d' = locked d ->
  (info d' = info d \/ info d' = dict "Info" d) ->
  (mdoc d = None -> info d' = info d) ->
  lifecycle_inv d -> lifecycle_inv d'.
Proof.
  unfold lifecycle_inv. intros Hm -> -> -> -> Hor Hi H.
  rewrite (dict_mdoc "Info" d d' Hm), Hm.
  destruct H as (H1 & H2 & H3 & H4). repeat split; try tauto.
  - rewrite Hi by assumption. tauto.
  - destruct Hor as [-> | ->]; auto.
Qed.

Theorem lifecycle_invariant (w : World) : lifecycle w -> lifecycle_inv (data w).
Proof.
  induction 1 as [lc ws st|w f _ IH Hm|w _ IH|w p _ IH|w _ IH|w k _ IH|w _ IH].
  - unfold lifecycle_inv. cbn. intuition congruence.
  - apply load_inv; assumption.
  - apply close_inv; assumption.
  - apply unlock_inv; assumption.
  - destruct (infoKeys_frame w) as (H1 & H2 & H3 & H4 & H5 & H6 & H7).
    eapply frame_inv; eauto. intros Hm. rewrite (H7 Hm). reflexivity.
  - destruct (infoKey_frame k w) as (H1 & H2 & H3 & H4 & H5 & H6 & H7).
    eapply frame_inv; eauto. intros Hm. rewrite (H7 Hm). reflexivity.
  - destruct (outline_frame w) as (H1 & _). rewrite H1. exact IH.
Qed.

(** ** Queries on a document that is not open *)

Lemma queries_empty_closed (Hnull : fz_load_outline None = fz_null)
  (w : World) (key : string) :
  mdoc (data w) = None -> queries_empty w key.
Proof.
  intros Hm. unfold queries_empty. repeat split.
  - unfold infoKeys. run. rewrite Hm. reflexivity.
  - unfold infoKey. run. rewrite Hm. reflexivity.
  - apply outline_absent. rewrite Hm. exact Hnull.
Qed.

(** C2. On a document on which [close] has been called, and on one that was
    never opened, [infoKeys] returns no key, [infoKey] returns the null
    string and [outline] returns no tree, and none of them changes anything.
    [infoKeys] and [infoKey] return at their guard, before any engine call;
    [outline] has no guard and hands the null document handle to the engine's
    [fz_load_outline], which accepts a null document and reports no outline
    for it ([Hnull]). *)
Theorem closed_document_queries (Hnull : fz_load_outline None = fz_null)
  (w : World) (key : string) (lc : string) (ws : list string) (st : list Outline) :
  (queries_empty (snd (close w)) key /\ isEmpty (fst (infoKey key (snd (close w)))) = true) /\
  queries_empty (new_Document lc ws st) key.
Proof.
  assert (Hc : queries_empty (snd (close w)) key)
    by (apply queries_empty_closed; [exact Hnull | apply close_closed]).
  split; [split; [exact Hc|] |].
  - destruct Hc as (_ & -> & _). reflexivity.
  - apply queries_empty_closed; [exact Hnull | reflexivity].
Qed.

(** ** [close] and the stream handle *)

(** What [close] leaves, in any state of the life cycle: the reset state
    except, possibly, for the stream handle. *)
Lemma close_resets_but_stream (w : World) :
  lifecycle w ->
  let w' := snd (close w) in
  mdoc (data w') = None /\ Document_pageCount w' = 0 /\
  Document_pageMode w' = UseNone /\ info (data w') = None /\ isLocked w' = false /\
  close w' = (tt, w') /\
  stream (data w') = match mdoc (data w) with
                     | Some _ => None
                     | None => stream (data w)
                     end.
Proof.
  intros Hl. cbv zeta.
  pose proof (lifecycle_invariant _ (lifecycle_close w Hl)) as (Hc & _).
  pose proof (close_closed w) as Hm. destruct (Hc Hm) as (Hpc & Hinfo & Hpm & Hlk).
  unfold Document_pageCount, Document_pageMode, isLocked.
  repeat (split; [assumption|]). split; [apply close_twice|].
  rewrite close_eq. cbn. destruct (mdoc (data w)); reflexivity.
Qed.

(** C4. [close] does not always null the stream handle.  When the stream
    opens and the engine throws while opening the document, [load] leaves
    the stream handle set and the document handle null; the [close] that
    follows returns at its guard and the stream handle is still set: the
    state [close] leaves is not the fully reset one.  This is the only way
    the reset falls short: in every state of the life cycle, after [close] the
    document handle is null, the page count 0, the page mode [UseNone], the
    Info reference absent and the locked flag false, a second [close]
    changes nothing, and the stream handle is null too unless the document
    handle was null and the stream handle set before the call. *)
Theorem close_leaves_stream_after_parse_failure
  (w : World) (fileName : string) (s : fz_stream)
  (Hl : lifecycle w) (Hclosed : mdoc (data w) = None)
  (Hopen : fz_open_file (encodeName fileName) = Some s)
  (Hthrow : fz_open_document_with_stream (Some s) = fz_throw) :
  let w1 := snd (load fileName w) in
  (lifecycle w1 /\ close w1 = (tt, w1) /\
   stream (data (snd (close w1))) = Some s /\ ~ close_fully_resets w1) /\
  (forall w0 : World,
     lifecycle w0 ->
     let w' := snd (close w0) in
     mdoc (data w') = None /\ Document_pageCount w' = 0 /\
     Document_pageMode w' = UseNone /\ info (data w') = None /\
     isLocked w' = false /\ close w' = (tt, w') /\
     stream (data w') = match mdoc (data w0) with
                        | Some _ => None
                        | None => stream (data w0)
                        end /\
     (close_fully_resets w0 <-> (mdoc (data w0) <> None \/ stream (data w0) = None))).
Proof.
  cbv zeta. split.
  - assert (Hl1 : lifecycle (snd (load fileName w))) by (apply lifecycle_load; assumption).
    assert (Hd : mdoc (data (snd (load fileName w))) = None /\
                 stream (data (snd (load fileName w))) = Some s).
    { unfold load. run. rewrite Hopen, Hthrow. cbn. auto. }
    destruct Hd as [Hm Hs].
    assert (Hc : close (snd (load fileName w)) = (tt, snd (load fileName w)))
      by (rewrite close_eq, Hm; reflexivity).
    split; [exact Hl1|]. split; [exact Hc|]. rewrite Hc. cbn [snd].
    split; [exact Hs|].
    intros (_ & Hstream & _). rewrite Hc in Hstream. cbn [snd] in Hstream. congruence.
  - intros w0 Hl0.
    destruct (close_resets_but_stream w0 Hl0) as (H1 & H2 & H3 & H4 & H5 & H6 & H7).
    repeat (split; [assumption|]).
    unfold close_fully_resets. cbv zeta. rewrite H7. split.
    + intros (_ & Hs & _). destruct (mdoc (data w0)); [left; discriminate | right; exact Hs].
    + intros Hor. split; [exact H1|]. split.
      * destruct (mdoc (data w0)); [reflexivity|]. destruct Hor as [Hn|Hs]; [congruence | exact Hs].
      * rewrite H6. cbn [snd]. auto.
Qed.

(** ** [unlock] *)

(** C5. [unlock] on a document that is not locked returns false and changes
    nothing.  On a locked document the page count is 0, a password the
    engine rejects makes [unlock] return false and change nothing, so any
    number of rejected attempts leaves the document as it was, and an attempt
    made after them behaves exactly as it would have as the first. *)
Theorem unlock_failure_keeps_state (w : World) (Hl : lifecycle w) :
  (isLocked w = false -> forall password, unlock password w = (false, w)) /\
  (isLocked w = true ->
     Document_pageCount w = 0 /\
     (forall password,
        fz_authenticate_password (mdoc (data w)) password = false ->
        unlock password w = (false, w)) /\
     (forall attempts,
        Forall (fun p => fz_authenticate_password (mdoc (data w)) p = false) attempts ->
        unlock_each attempts w = (map (fun _ => false) attempts, w) /\
        forall password,
          unlock password (snd (unlock_each attempts w)) = unlock password w)).
Proof.
  split.
  - intros Hlk password. apply unlock_not_locked. exact Hlk.
  - intros Hlk. destruct (lifecycle_invariant w Hl) as (_ & Hinv & _).
    destruct (Hinv Hlk) as (Hpc & _). split; [exact Hpc|]. split.
    + intros password. apply unlock_rejected.
    + intros attempts Hrej. rewrite (unlock_each_rejected _ _ Hrej). auto.
Qed.

(** C10. On a locked document, when the engine accepts the password and the
    trailer has no Root, [unlock] returns false but has already cleared the
    locked flag: afterwards the document is not locked, its page count is 0
    and its document handle is still set, and every further [unlock] returns
    false at once. *)
Theorem unlock_accepted_without_root (w : World) (password : string)
  (Hl : lifecycle w) (Hlocked : isLocked w = true)
  (Hauth : fz_authenticate_password (mdoc (data w)) password = true)
  (Hroot : dict "Root" (data w) = None) :
  let w' := snd (unlock password w) in
  fst (unlock password w) = false /\
  isLocked w' = false /\ Document_pageCount w' = 0 /\
  mdoc (data w') = mdoc (data w) /\ mdoc (data w') <> None /\
  forall again, unlock again w' = (false, w').
Proof.
  destruct (lifecycle_invariant w Hl) as (_ & Hinv & _).
  destruct (Hinv Hlocked) as (Hpc & _ & Hm).
  unfold isLocked in Hlocked. cbv zeta.
  assert (Hu : unlock password w =
               (false, with_data w {| mdoc := mdoc (data w); stream := stream (data w);
                                      pageCount := pageCount (data w);
                                      info := info (data w);
                                      pageMode := pageMode (data w);
                                      locked := false |})).
  { rewrite unlock_eq, Hlocked, Hauth. cbn -[Data_load].
    rewrite Data_load_eq. unfold dict in *. cbn. rewrite Hroot. reflexivity. }
  rewrite Hu. unfold isLocked, Document_pageCount. cbn.
  repeat split; auto.
Qed.

(** ** Values of the Info dictionary *)



(** ** The page mode *)

(** The [strcmp] chain of [Data::load] picks the mode the table of names
    gives, and keeps the default for anything else. *)
Lemma mode_of_default (obj : option pdf_obj) : mode_of obj UseNone = named_mode obj.
Proof.
  unfold mode_of, named_mode. destruct obj as [o|]; [|reflexivity].
  replace (bool_decide (is_Some (Some o))) with true
    by (symmetry; apply bool_decide_eq_true; eauto).
  cbn [andb]. destruct (pdf_is_name (Some o)); [|reflexivity].
  cbn [assoc PageMode_names].
  rewrite !(String.eqb_sym (pdf_to_name (Some o))).
  repeat match goal with |- context [String.eqb ?a ?b] => destruct (String.eqb a b) end;
    reflexivity.
Qed.

Lemma load_pageMode (w : World) (fileName : string) :
  lifecycle_inv (data w) -> mdoc (data w) = None ->
  let w' := snd (load fileName w) in
  Document_pageMode w' =
  match mdoc (data w') with
  | Some _ => if isLocked w' then UseNone else trailer_mode (data w')
  | None => UseNone
  end.
Proof.
  intros (Hc & _) Hm. destruct (Hc Hm) as (_ & _ & Hpm & Hlk).
  unfold load, Document_pageMode, isLocked, trailer_mode. run.
  destruct (fz_open_file (encodeName fileName)) as [s|]; [|cbn; rewrite Hm; exact Hpm].
  destruct (fz_open_document_with_stream (Some s)) as [[doc|]|]; try (cbn; exact Hpm).
  cbn -[Data_load]. destruct (fz_needs_password (Some doc)) eqn:Hneed; cbn -[Data_load].
  - exact Hpm.
  - rewrite Data_load_eq. unfold dict. cbn.
    destruct (pdf_dict_gets (pdf_trailer (Some doc)) "Root") as [root|] eqn:Hroot; cbn;
      unfold dict; cbn; rewrite Hroot, Hpm; [apply mode_of_default | reflexivity].
Qed.

Lemma unlock_pageMode (w : World) (password : string) :
  lifecycle_inv (data w) -> isLocked w = true ->
  Document_pageMode (snd (unlock password w)) =
  if fst (unlock password w) then trailer_mode (data (snd (unlock password w)))
  else UseNone.
Proof.
  intros (_ & Hinv & _) Hlk. destruct (Hinv Hlk) as (_ & Hpm & _).
  unfold isLocked in Hlk. rewrite unlock_eq, Hlk. cbn [negb].
  destruct (fz_authenticate_password _ _); cbn -[Data_load]; [|exact Hpm].
  rewrite Data_load_eq. unfold Document_pageMode, trailer_mode, dict. cbn.
  destruct (pdf_dict_gets (pdf_trailer (mdoc (data w))) "Root") as [root|] eqn:Hroot; cbn.
  - rewrite Hroot, Hpm. apply mode_of_default.
  - exact Hpm.
Qed.

Lemma assoc_In {A : Type} (key : string) (entries : list (string * A)) (v : A) :
  assoc key entries = Some v -> In (key, v) entries.
Proof.
  induction entries as [|[k x] rest IH]; cbn; [discriminate|].
  destruct (String.eqb_spec k key) as [->|Hne]; [intros [= ->]; auto | auto].
Qed.

Lemma assoc_None {A : Type} (key : string) (entries : list (string * A)) :
  assoc key entries = None -> forall v, ~ In (key, v) entries.
Proof.
  induction entries as [|[k x] rest IH]; cbn; [tauto|].
  destruct (String.eqb_spec k key) as [->|Hne]; [discriminate|].
  intros Hnone v [[= Hk _]|Hin]; [congruence | exact (IH Hnone v Hin)].
Qed.

(** The mode named by an entry, case by case. *)
Lemma named_mode_cases (obj : option pdf_obj) :
  (obj = None \/ pdf_is_name obj = false -> named_mode obj = UseNone) /\
  (obj <> None -> pdf_is_name obj = true ->
   (forall m, In (pdf_to_name obj, m) PageMode_names -> named_mode obj = m) /\
   ((forall m, ~ In (pdf_to_name obj, m) PageMode_names) -> named_mode obj = UseNone)).
Proof.
  unfold named_mode. split.
  - intros [-> | Hn]; [reflexivity|]. rewrite Hn. destruct obj; reflexivity.
  - intros Hsome Hname. destruct obj as [o|]; [|congruence]. rewrite Hname.
    destruct (assoc (pdf_to_name (Some o)) PageMode_names) as [m'|] eqn:Ha.
    + split.
      * intros m Hin. cbn in Hin.
        repeat (destruct Hin as [[= Hk <-]|Hin];
                [rewrite <- Hk in Ha; cbn in Ha; congruence|]).
        destruct Hin.
      * intros Hnot. destruct (Hnot m' (assoc_In _ _ _ Ha)).
    + split; [|reflexivity].
      intros m Hin. destruct (assoc_None _ _ Ha m Hin).
Qed.

(** C9. The page mode of a new document is [UseNone], and it stays so while
    the document handle is null or the document is locked.  The load step,
    run by [load] on a document that needs no password and by a successful
    [unlock], sets it from the PageMode entry of the trailer's Root: to the
    mode of that name when the entry is a name among the six, and leaving
    [UseNone] when the entry is absent, is not a name, or names something
    else.  No query and no later [unlock] changes it. *)
Theorem pageMode_from_trailer (w : World) (Hl : lifecycle w) :
  (forall lc ws st, Document_pageMode (new_Document lc ws st) = UseNone) /\
  (mdoc (data w) = None \/ isLocked w = true -> Document_pageMode w = UseNone) /\
  (mdoc (data w) = None ->
   forall fileName,
     let w' := snd (load fileName w) in
     Document_pageMode w' =
     match mdoc (data w') with
     | Some _ => if isLocked w' then UseNone else trailer_mode (data w')
     | None => UseNone
     end) /\
  (isLocked w = true ->
   forall password,
     Document_pageMode (snd (unlock password w)) =
     if fst (unlock password w) then trailer_mode (data (snd (unlock password w)))
     else UseNone) /\
  (isLocked w = false ->
   forall password, Document_pageMode (snd (unlock password w)) = Document_pageMode w) /\
  (forall key,
     Document_pageMode (snd (infoKeys w)) = Document_pageMode w /\
     Document_pageMode (snd (infoKey key w)) = Document_pageMode w /\
     Document_pageMode (snd (outline w)) = Document_pageMode w) /\
  (forall obj : option pdf_obj,
     (obj = None \/ pdf_is_name obj = false -> named_mode obj = UseNone) /\
     (obj <> None -> pdf_is_name obj = true ->
      (forall m, In (pdf_to_name obj, m) PageMode_names -> named_mode obj = m) /\
      ((forall m, ~ In (pdf_to_name obj, m) PageMode_names) -> named_mode obj = UseNone))).
Proof.
  pose proof (lifecycle_invariant w Hl) as Hinv.
  split; [reflexivity|]. split; [|split; [|split; [|split; [|split]]]].
  - destruct Hinv as (Hc & Hk & _). unfold Document_pageMode.
    intros [Hm|Hlk]; [apply (Hc Hm) | apply (Hk Hlk)].
  - intros Hm fileName. apply load_pageMode; assumption.
  - intros Hlk password. apply unlock_pageMode; assumption.
  - intros Hlk password. rewrite unlock_not_locked by exact Hlk. reflexivity.
  - intros key. unfold Document_pageMode.
    destruct (infoKeys_frame w) as (_ & _ & _ & H1 & _).
    destruct (infoKey_frame key w) as (_ & _ & _ & H2 & _).
    destruct (outline_frame w) as (H3 & _).
    rewrite H1, H2, H3. auto.
  - apply named_mode_cases.
Qed.

(** * The PDF version *)

(** ** [sscanf] on a well-formed format string *)

Lemma digit_char (d : nat) :
  (d < 10)%nat ->
  let c := ascii_of_nat (48 + d) in
  isdigit c = true /\ isspace c = false /\ digit_value c = Z.of_nat d /\
  c <> "-"%char /\ c <> "+"%char.
Proof.
  intros Hd.
  do 10 (destruct d as [|d]; [repeat split; try reflexivity; intros [=]|]). lia.
Qed.

Lemma append_String (c : ascii) (s r : string) :
  (String c s ++ r)%string = String c (s ++ r)%string.
Proof. reflexivity. Qed.

Lemma append_empty (s : string) : (s ++ "")%string = s.
Proof.
  induction s as [|c s IH]; [reflexivity|]. rewrite append_String, IH. reflexivity.
Qed.

Lemma scan_digits_numeral (digits : list nat) :
  Forall (fun d => (d < 10)%nat) digits ->
  forall (acc : Z) (rest : string),
  scan_digits acc (numeral digits ++ rest)%string
  = scan_digits (fold_left (fun acc d => 10 * acc + Z.of_nat d) digits acc) rest.
Proof.
  induction 1 as [|d ds Hd _ IH]; intros acc rest; [reflexivity|].
  destruct (digit_char d Hd) as (Hdig & _ & Hval & _).
  cbn [numeral fold_left]. rewrite append_String. cbn [scan_digits].
  cbv zeta in Hdig, Hval. rewrite Hdig, Hval. apply IH.
Qed.

Lemma scan_digits_stop (v : Z) (rest : string) :
  no_digit_ahead rest -> scan_digits v rest = (v, rest).
Proof. destruct rest as [|c r]; cbn; [reflexivity | intros ->; reflexivity]. Qed.

Lemma skip_space_spaces (sp : list ascii) (rest : string) :
  Forall (fun c => isspace c = true) sp ->
  skip_space (string_of_list_ascii sp ++ rest)%string = skip_space rest.
Proof.
  induction 1 as [|c sp Hc _ IH]; [reflexivity|].
  cbn [string_of_list_ascii]. rewrite append_String. cbn [skip_space].
  rewrite Hc. exact IH.
Qed.

(** ** From what [sscanf] accepts back to the text *)

Lemma isdigit_inv (c : ascii) :
  isdigit c = true -> exists d : nat, (d < 10)%nat /\ c = ascii_of_nat (48 + d).
Proof.
  unfold isdigit. cbv zeta. intros H.
  apply andb_true_iff in H as [H1 H2].
  apply Nat.leb_le in H1. apply Nat.leb_le in H2.
  exists (nat_of_ascii c - 48)%nat. split; [lia|].
  replace (48 + (nat_of_ascii c - 48))%nat with (nat_of_ascii c) by lia.
  symmetry. apply ascii_nat_embedding.
Qed.

Lemma scan_digits_inv (s : string) :
  forall (acc v : Z) (r : string),
  scan_digits acc s = (v, r) ->
  exists ds : list nat,
    s = (numeral ds ++ r)%string /\ Forall (fun d => (d < 10)%nat) ds /\
    no_digit_ahead r /\ v = fold_left (fun acc d => 10 * acc + Z.of_nat d) ds acc.
Proof.
  induction s as [|c s IH]; intros acc v r H; cbn [scan_digits] in H.
  - injection H as <- <-. exists []. repeat split. constructor.
  - destruct (isdigit c) eqn:Hc.
    + apply IH in H as (ds & -> & Hds & Hr & ->).
      destruct (isdigit_inv c Hc) as (d & Hd & ->).
      destruct (digit_char d Hd) as (_ & _ & Hval & _). cbv zeta in Hval.
      exists (d :: ds). split; [reflexivity|]. split; [constructor; assumption|].
      split; [exact Hr|]. cbn [fold_left]. rewrite Hval. reflexivity.
    + injection H as <- <-. exists []. split; [reflexivity|].
      split; [constructor|]. split; [exact Hc | reflexivity].
Qed.

Lemma scan_unsigned_inv (s r : string) (v : Z) :
  scan_unsigned s = Some (v, r) ->
  exists ds : list nat,
    s = (numeral ds ++ r)%string /\ ds <> [] /\ Forall (fun d => (d < 10)%nat) ds /\
    no_digit_ahead r /\ v = numeral_value ds.
Proof.
  unfold scan_unsigned. destruct s as [|c s]; [discriminate|].
  destruct (isdigit c) eqn:Hc; [|discriminate].
  intros H.
  assert (H' : scan_digits 0 (String c s) = (v, r)) by congruence.
  apply scan_digits_inv in H' as (ds & Hs & Hds & Hr & ->).
  exists ds. split; [exact Hs|]. split; [|auto].
  intros ->. cbn [numeral] in Hs. change (String c s = r) in Hs. subst r.
  cbn in Hr. congruence.
Qed.

Lemma scan_unsigned_numeral (ds : list nat) (rest : string) :
  ds <> [] -> Forall (fun d => (d < 10)%nat) ds -> no_digit_ahead rest ->
  scan_unsigned (numeral ds ++ rest)%string = Some (numeral_value ds, rest).
Proof.
  intros Hne Hds Hrest.
  pose proof (scan_digits_numeral ds Hds 0 rest) as Hscan.
  rewrite (scan_digits_stop _ _ Hrest) in Hscan.
  destruct ds as [|d ds]; [congruence|].
  inversion Hds as [|? ? Hd _]; subst.
  destruct (digit_char d Hd) as (Hdig & _). cbv zeta in Hdig.
  cbn [numeral] in *. rewrite append_String in *.
  unfold scan_unsigned. rewrite Hdig, Hscan. reflexivity.
Qed.

Lemma skip_space_inv (s : string) :
  exists sp : list ascii,
    s = (string_of_list_ascii sp ++ skip_space s)%string /\
    Forall (fun c => isspace c = true) sp.
Proof.
  induction s as [|c s (sp & Hs & Hsp)].
  - exists []. split; [reflexivity | constructor].
  - cbn [skip_space]. destruct (isspace c) eqn:Hc.
    + exists (c :: sp). cbn [string_of_list_ascii]. rewrite append_String, <- Hs.
      split; [reflexivity | constructor; assumption].
    + exists []. split; [reflexivity | constructor].
Qed.

Lemma skip_space_idem (s : string) : skip_space (skip_space s) = skip_space s.
Proof.
  induction s as [|c s IH]; [reflexivity|]. cbn [skip_space].
  destruct (isspace c) eqn:Hc; [exact IH|]. cbn [skip_space]. rewrite Hc. reflexivity.
Qed.

Lemma scan_d_skip_space (s : string) : scan_d (skip_space s) = scan_d s.
Proof. unfold scan_d. rewrite skip_space_idem. reflexivity. Qed.

Lemma scan_char_inv (c : ascii) (s r : string) :
  scan_char c s = Some r -> s = String c r.
Proof.
  unfold scan_char. destruct s as [|c' s]; [discriminate|].
  destruct (Ascii.eqb c c') eqn:Hc; [|discriminate].
  apply Ascii.eqb_eq in Hc as ->. intros [= ->]. reflexivity.
Qed.

Lemma scan_char_head (c : ascii) (r : string) : scan_char c (String c r) = Some r.
Proof. unfold scan_char. rewrite Ascii.eqb_refl. reflexivity. Qed.

(** [%d] converts exactly the texts made of white space, an optional sign and
    a numeral, and leaves what follows the numeral. *)
Lemma scan_d_inv (s r : string) (v : Z) :
  scan_d s = Some (v, r) ->
  exists (sp : list ascii) (sign : option bool) (ds : list nat),
    s = (string_of_list_ascii sp ++ sign_text sign ++ numeral ds ++ r)%string /\
    Forall (fun c => isspace c = true) sp /\
    ds <> [] /\ Forall (fun d => (d < 10)%nat) ds /\ no_digit_ahead r /\
    v = int_stored (signed sign (numeral_value ds)).
Proof.
  unfold scan_d. destruct (skip_space_inv s) as (sp & Hs & Hsp).
  destruct (skip_space s) as [|c t]; [discriminate|].
  destruct (Ascii.eqb c "-") eqn:Hminus; [|destruct (Ascii.eqb c "+") eqn:Hplus].
  - apply Ascii.eqb_eq in Hminus as ->.
    destruct (scan_unsigned t) as [[n r']|] eqn:Hu; [|discriminate].
    intros [= <- <-]. apply scan_unsigned_inv in Hu as (ds & -> & Hne & Hds & Hr & ->).
    exists sp, (Some true), ds. split; [exact Hs | auto].
  - apply Ascii.eqb_eq in Hplus as ->.
    destruct (scan_unsigned t) as [[n r']|] eqn:Hu; [|discriminate].
    intros [= <- <-]. apply scan_unsigned_inv in Hu as (ds & -> & Hne & Hds & Hr & ->).
    exists sp, (Some false), ds. split; [exact Hs | auto].
  - destruct (scan_unsigned (String c t)) as [[n r']|] eqn:Hu; [|discriminate].
    intros [= <- <-]. apply scan_unsigned_inv in Hu as (ds & Ht & Hne & Hds & Hr & ->).
    exists sp, None, ds. rewrite Ht in Hs. split; [exact Hs | auto].
Qed.

Lemma scan_d_text (sp : list ascii) (sign : option bool) (ds : list nat) (rest : string) :
  Forall (fun c => isspace c = true) sp ->
  ds <> [] -> Forall (fun d => (d < 10)%nat) ds -> no_digit_ahead rest ->
  scan_d (string_of_list_ascii sp ++ sign_text sign ++ numeral ds ++ rest)%string
  = Some (int_stored (signed sign (numeral_value ds)), rest).
Proof.
  intros Hsp Hne Hds Hrest. unfold scan_d. rewrite (skip_space_spaces _ _ Hsp).
  pose proof (scan_unsigned_numeral ds rest Hne Hds Hrest) as Hu.
  destruct sign as [[|]|]; cbn [sign_text signed].
  - change ("-" ++ ?x)%string with (String "-" x). cbn [skip_space].
    change (isspace "-") with false. cbv iota.
    change (Ascii.eqb "-" "-") with true. cbv iota. rewrite Hu. reflexivity.
  - change ("+" ++ ?x)%string with (String "+" x). cbn [skip_space].
    change (isspace "+") with false. cbv iota.
    change (Ascii.eqb "+" "-") with false. change (Ascii.eqb "+" "+") with true.
    cbv iota. rewrite Hu. reflexivity.
  - change ("" ++ ?x)%string with x.
    destruct ds as [|d ds']; [congruence|]. inversion Hds as [|? ? Hd _]; subst.
    destruct (digit_char d Hd) as (_ & Hspc & _ & Hm & Hp). cbv zeta in Hspc, Hm, Hp.
    cbn [numeral] in Hu |- *. rewrite append_String in Hu |- *.
    cbn [skip_space]. rewrite Hspc.
    apply Ascii.eqb_neq in Hm. apply Ascii.eqb_neq in Hp. rewrite Hm, Hp, Hu.
    reflexivity.
Qed.

(** The format reads two integers from exactly the strings of that shape. *)
Lemma sscanf_PDF_reads (buf : string) (major minor : Z) :
  sscanf_PDF_d_d buf = [major; minor] <-> reads_PDF_d_d buf major minor.
Proof.
  split.
  - unfold sscanf_PDF_d_d.
    destruct (scan_char "P" buf) as [s1|] eqn:H1; [|discriminate].
    destruct (scan_char "D" s1) as [s2|] eqn:H2; [|discriminate].
    destruct (scan_char "F" s2) as [s3|] eqn:H3; [|discriminate].
    rewrite scan_d_skip_space.
    destruct (scan_d s3) as [[mj s4]|] eqn:H4; [|discriminate].
    destruct (scan_char "." s4) as [s5|] eqn:H5; [|discriminate].
    destruct (scan_d s5) as [[mn s6]|] eqn:H6; [|discriminate].
    intros [= -> ->].
    apply scan_char_inv in H1, H2, H3, H5. subst buf s1 s2 s4.
    apply scan_d_inv in H6 as (sp2 & sign2 & ds2 & -> & Hsp2 & Hne2 & Hds2 & Hr2 & ->).
    apply scan_d_inv in H4 as (sp1 & sign1 & ds1 & -> & Hsp1 & Hne1 & Hds1 & _ & ->).
    exists sp1, sign1, ds1, sp2, sign2, ds2, s6.
    split; [reflexivity|]. repeat (split; [assumption|]). split; reflexivity.
  - intros (sp1 & sign1 & ds1 & sp2 & sign2 & ds2 & rest & -> & Hsp1 & Hsp2 & Hne1
            & Hne2 & Hds1 & Hds2 & Hrest & -> & ->).
    unfold sscanf_PDF_d_d.
    change ("PDF" ++ ?x)%string with (String "P" (String "D" (String "F" x))).
    change ("." ++ ?x)%string with (String "." x).
    rewrite !scan_char_head, scan_d_skip_space.
    rewrite (scan_d_text sp1 sign1 ds1 _ Hsp1 Hne1 Hds1) by reflexivity.
    rewrite scan_char_head.
    rewrite (scan_d_text sp2 sign2 ds2 _ Hsp2 Hne2 Hds2 Hrest). reflexivity.
Qed.

Lemma numeral_value_nonneg (ds : list nat) : 0 <= numeral_value ds.
Proof.
  unfold numeral_value.
  assert (H : forall acc, 0 <= acc ->
              0 <= fold_left (fun acc d => 10 * acc + Z.of_nat d) ds acc).
  { induction ds as [|d ds IH]; intros acc Hacc; [exact Hacc|].
    cbn [fold_left]. apply IH. lia. }
  apply H. lia.
Qed.

(** The value stored is an [int], and is the number written when that fits. *)
Lemma int_stored_range (z : Z) : - 2 ^ 31 <= int_stored z < 2 ^ 31.
Proof.
  unfold int_stored.
  pose proof (Z.mod_pos_bound (clamp_long z + 2 ^ 31) (2 ^ 32) ltac:(lia)). lia.
Qed.

Lemma int_stored_fits (z : Z) : - 2 ^ 31 <= z < 2 ^ 31 -> int_stored z = z.
Proof.
  intros Hz. unfold int_stored, clamp_long.
  rewrite Z.min_l, Z.max_r by lia.
  rewrite Z.mod_small by lia. lia.
Qed.

(** ** The value returned *)

Lemma version_accurate_all :
  forallb (fun major => forallb (version_accurate major) (seqZ 0 100)) (seqZ 0 100) = true.
Proof. vm_compute. reflexivity. Qed.

Lemma version_accuracy (major minor : Z) :
  0 <= major < 100 -> 0 <= minor < 100 ->
  is_finite (version_float major minor) = true /\
  (Qabs (SF2Q (version_float major minor) - version_value major minor)
   <= version_value major minor * (1 # 16777216))%Q.
Proof.
  intros Hmajor Hminor.
  pose proof version_accurate_all as Hall.
  rewrite forallb_forall in Hall.
  assert (Hin : forall x, 0 <= x < 100 -> In x (seqZ 0 100)).
  { intros x Hx. apply list_elem_of_In, elem_of_seqZ. lia. }
  specialize (Hall major (Hin major Hmajor)).
  rewrite forallb_forall in Hall.
  specialize (Hall minor (Hin minor Hminor)).
  unfold version_accurate in Hall. apply andb_true_iff in Hall as [Hfin Hle].
  split; [exact Hfin|]. apply Qle_bool_iff. exact Hle.
Qed.

(** C8. [pdfVersion] is +0 on a document that is not open and when the
    engine has no format string.  With a format string it is
    [float(major + minor / 10.0)] when the string reads "PDF", any white
    space, an optionally signed decimal numeral, a dot, any white space and
    a second optionally signed numeral that no digit follows, [major] and
    [minor] being the two numbers as stored in an [int]; for every other
    string it is +0.  For integers below 100 the result is a number within
    half a unit in the last place of [major + minor/10], and for the format
    string "PDF 1.7" it is the [float] 14260634 * 2^-23, the one nearest to
    1.7.  ["PDF %d.%d"] reads two integers from the strings of that shape and
    from no other; the integers stored are in the range of an [int]; a
    buffer that reads "PDF ", a decimal numeral, a dot and a decimal numeral
    converts to the two numbers written when both fit an [int]. *)
Theorem pdfVersion_parses_format (w : World) :
  match mdoc (data w) with
  | None => pdfVersion w = S754_zero false
  | Some _ =>
      match fz_lookup_format (mdoc (data w)) with
      | None => pdfVersion w = S754_zero false
      | Some buf =>
          (forall major minor : Z,
             reads_PDF_d_d buf major minor ->
             pdfVersion w = version_float major minor /\
             (0 <= major < 100 -> 0 <= minor < 100 ->
              is_finite (pdfVersion w) = true /\
              (Qabs (SF2Q (pdfVersion w) - version_value major minor)
               <= version_value major minor * (1 # 16777216))%Q)) /\
          ((forall major minor : Z, ~ reads_PDF_d_d buf major minor) ->
           pdfVersion w = S754_zero false) /\
          (buf = "PDF 1.7" ->
           reads_PDF_d_d buf 1 7 /\
           pdfVersion w = S754_finite false 14260634 (-23) /\
           (Qabs (SF2Q (pdfVersion w) - (17 # 10)) <= (1 # 16777216))%Q)
      end
  end /\
  (forall (buf : string) (major minor : Z),
     sscanf_PDF_d_d buf = [major; minor] <-> reads_PDF_d_d buf major minor) /\
  (forall (buf : string) (major minor : Z),
     reads_PDF_d_d buf major minor ->
     - 2 ^ 31 <= major < 2 ^ 31 /\ - 2 ^ 31 <= minor < 2 ^ 31) /\
  (forall ds1 ds2 : list nat,
     ds1 <> [] -> ds2 <> [] ->
     Forall (fun d => (d < 10)%nat) ds1 -> Forall (fun d => (d < 10)%nat) ds2 ->
     numeral_value ds1 < 2 ^ 31 -> numeral_value ds2 < 2 ^ 31 ->
     sscanf_PDF_d_d ("PDF " ++ numeral ds1 ++ "." ++ numeral ds2)%string
     = [numeral_value ds1; numeral_value ds2]).
Proof.
  split; [|split; [|split]].
  - unfold pdfVersion.
    destruct (mdoc (data w)) as [doc|]; [|reflexivity].
    destruct (fz_lookup_format (Some doc)) as [buf|]; [|reflexivity].
    split; [|split].
    + intros major minor Hreads. apply sscanf_PDF_reads in Hreads. rewrite Hreads.
      split; [reflexivity|]. apply version_accuracy.
    + intros Hno.
      destruct (sscanf_PDF_d_d buf) as [|major [|minor [|]]] eqn:Hscan; try reflexivity.
      apply sscanf_PDF_reads in Hscan. destruct (Hno _ _ Hscan).
    + intros ->. split; [apply sscanf_PDF_reads; reflexivity|].
      vm_compute. split; [reflexivity | discriminate].
  - apply sscanf_PDF_reads.
  - intros buf major minor (_ & sign1 & ds1 & _ & sign2 & ds2 & _ & _ & _ & _ & _ & _
                            & _ & _ & _ & -> & ->).
    split; apply int_stored_range.
  - intros ds1 ds2 Hne1 Hne2 Hd1 Hd2 Hfit1 Hfit2.
    apply sscanf_PDF_reads.
    exists [" "%char], None, ds1, [], None, ds2, EmptyString.
    rewrite append_empty. split; [reflexivity|].
    split; [repeat constructor|]. split; [constructor|].
    repeat (split; [assumption|]). split; [exact I|].
    pose proof (numeral_value_nonneg ds1). pose proof (numeral_value_nonneg ds2).
    cbn [signed]. rewrite !int_stored_fits by lia. split; reflexivity.
Qed.

End Properties.

(** * Further properties of the code *)

Section MoreProperties.
Context {E : Engine} {QT : Qt}.

Ltac step :=
  cbv [bind ret get_data modify_data set_mdoc set_stream set_pageCount set_info
       set_pageMode set_locked qWarning setlocale new_Outline appendChild M State];
  cbn [data lc_numeric warnings store mdoc stream pageCount info pageMode locked
       fst snd].

(** ** What [load] returns and touches *)

(** X1. [load] returns true exactly when the stream opens, the engine returns a
    document, and that document either needs a password or has a Root in its
    trailer.  It logs one warning when the engine throws and nothing
    otherwise, never touches the free store, and always leaves the stream
    handle at what [fz_open_file] returned; when the file cannot be opened
    nothing else changes, the locale included. *)
Theorem load_result (w : World) (fileName : string) :
  (fst (load fileName w) = true <->
   exists s doc,
     fz_open_file (encodeName fileName) = Some s /\
     fz_open_document_with_stream (Some s) = fz_ok (Some doc) /\
     (fz_needs_password (Some doc) = true \/
      pdf_dict_gets (pdf_trailer (Some doc)) "Root" <> None)) /\
  warnings (snd (load fileName w))
  = warnings w ++
    match fz_open_file (encodeName fileName) with
    | Some s =>
        match fz_open_document_with_stream (Some s) with
        | fz_throw => ["Error when trying to load document"]
        | fz_ok _ => []
        end
    | None => []
    end /\
  store (snd (load fileName w)) = store w /\
  stream (data (snd (load fileName w))) = fz_open_file (encodeName fileName) /\
  (fz_open_file (encodeName fileName) = None ->
   load fileName w
   = (false,
      with_data w {| mdoc := mdoc (data w); stream := None;
                     pageCount := pageCount (data w); info := info (data w);
                     pageMode := pageMode (data w); locked := locked (data w) |})).
Proof.
  unfold load. step.
  destruct (fz_open_file (encodeName fileName)) as [s|] eqn:Hopen.
  2:{ cbn. rewrite app_nil_r. repeat split; auto; try discriminate.
      intros (s & doc & [=] & _). }
  destruct (fz_open_document_with_stream (Some s)) as [[doc|]|] eqn:Hparse.
  - cbn -[Data_load].
    destruct (fz_needs_password (Some doc)) eqn:Hneed; cbn -[Data_load].
    + rewrite app_nil_r. repeat split; auto; try discriminate.
      intros _. exists s, doc. auto.
    + rewrite Data_load_eq. unfold dict. cbn.
      destruct (pdf_dict_gets (pdf_trailer (Some doc)) "Root") as [root|] eqn:Hroot;
        cbn; rewrite app_nil_r; repeat split; auto; try discriminate.
      * intros _. exists s, doc. repeat split; auto. right. congruence.
      * intros (s' & doc' & [= <-] & Hp & [Hn|Hr]); rewrite Hparse in Hp;
          injection Hp as <-; congruence.
  - cbn. rewrite app_nil_r. repeat split; auto; try discriminate.
    intros (s' & doc' & [= <-] & Hp & _). rewrite Hparse in Hp. discriminate.
  - cbn. repeat split; auto; try discriminate.
    intros (s' & doc' & [= <-] & Hp & _). rewrite Hparse in Hp. discriminate.
Qed.

(** ** What [unlock] returns and touches *)

(** X3. [unlock] returns true exactly when the document is locked, the engine
    accepts the password and the trailer has a Root.  It then has cleared the
    locked flag and stored the engine's page count, has touched neither the
    handles, the Info cache, the locale, the log nor the free store, and
    every later [unlock] returns false without effect: [unlock] succeeds at
    most once. *)
Theorem unlock_result (w : World) (password : string) :
  (fst (unlock password w) = true <->
   isLocked w = true /\
   fz_authenticate_password (mdoc (data w)) password = true /\
   dict "Root" (data w) <> None) /\
  (fst (unlock password w) = true ->
   let w' := snd (unlock password w) in
   isLocked w' = false /\
   Document_pageCount w' = fz_count_pages (mdoc (data w)) /\
   mdoc (data w') = mdoc (data w) /\ stream (data w') = stream (data w) /\
   info (data w') = info (data w) /\
   lc_numeric w' = lc_numeric w /\ warnings w' = warnings w /\ store w' = store w /\
   forall again, unlock again w' = (false, w')).
Proof.
  rewrite unlock_eq. unfold isLocked, Document_pageCount.
  destruct (locked (data w)) eqn:Hlk; cbn [negb].
  2:{ cbn. split; [split; [discriminate | intros ([=] & _)] | discriminate]. }
  destruct (fz_authenticate_password (mdoc (data w)) password) eqn:Hauth; cbn [negb].
  2:{ cbn. split; [split; [discriminate | intros (_ & [=] & _)] | discriminate]. }
  cbv zeta. rewrite Data_load_eq. unfold dict. cbn.
  destruct (pdf_dict_gets (pdf_trailer (mdoc (data w))) "Root") as [root|] eqn:Hroot; cbn.
  - split; [split; [intros _; repeat split; congruence | reflexivity]|].
    intros _. repeat split; auto.
  - split; [split; [discriminate | intros (_ & _ & H); congruence] | discriminate].
Qed.

(** ** The cached values belong to the current document *)

Lemma cached_after_Data_load (d : Data) (w : World) :
  data w = d -> mdoc d <> None -> stream d <> None ->
  (info d = None \/ info d = dict "Info" d) ->
  locked d = false -> pageCount d = 0 -> pageMode d = UseNone ->
  cached_values_current (data (snd (Data_load w))).
Proof.
  intros <- Hm Hs Hi Hlk Hpc Hpm. rewrite Data_load_eq.
  unfold cached_values_current, trailer_mode, dict in *.
  destruct (mdoc (data w)) as [doc|] eqn:Hdoc; [|congruence].
  destruct (pdf_dict_gets (pdf_trailer (Some doc)) "Root") as [root|] eqn:Hroot; cbn.
  - rewrite Hlk, Hroot, Hpm. repeat split; auto. apply mode_of_default.
  - rewrite ?Hdoc, ?Hlk. cbn. rewrite ?Hroot. auto.
Qed.

Lemma cached_load (w : World) (fileName : string) :
  cached_values_current (data w) -> mdoc (data w) = None ->
  cached_values_current (data (snd (load fileName w))).
Proof.
  unfold cached_values_current at 1. intros Hc Hm. rewrite Hm in Hc.
  destruct Hc as (Hpc & Hinfo & Hpm & Hlk).
  unfold load. step.
  destruct (fz_open_file (encodeName fileName)) as [s|].
  2:{ cbn. unfold cached_values_current. cbn. rewrite Hm. auto. }
  destruct (fz_open_document_with_stream (Some s)) as [[doc|]|].
  - cbn -[Data_load]. destruct (fz_needs_password (Some doc)) eqn:Hneed; cbn -[Data_load].
    + unfold cached_values_current. cbn. repeat split; auto; congruence.
    + match goal with |- context [Data_load ?x] =>
        assert (H : cached_values_current (data (snd (Data_load x))))
          by (eapply cached_after_Data_load; [reflexivity|..]; cbn; auto; congruence);
        destruct (Data_load x) as [[] w']
      end; exact H.
  - cbn. unfold cached_values_current. cbn. auto.
  - cbn. unfold cached_values_current. cbn. auto.
Qed.

Lemma cached_unlock (w : World) (password : string) :
  cached_values_current (data w) ->
  cached_values_current (data (snd (unlock password w))).
Proof.
  intros Hc. rewrite unlock_eq.
  destruct (locked (data w)) eqn:Hlk; cbn [negb]; [|exact Hc].
  destruct (fz_authenticate_password _ _); cbn [negb]; [|exact Hc].
  unfold cached_values_current in Hc. rewrite Hlk in Hc.
  destruct (mdoc (data w)) as [doc|] eqn:Hdoc; [|destruct Hc as (_ & _ & _ & [=])].
  destruct Hc as (Hs & Hi & _ & Hpc & Hpm).
  cbv zeta. cbn [snd]. eapply cached_after_Data_load; [reflexivity|..]; cbn; auto;
    try congruence.
  unfold dict in *. cbn. rewrite <- Hdoc. exact Hi.
Qed.

Lemma cached_frame (d d' : Data) :
  mdoc d' = mdoc d -> stream d' = stream d -> pageCount d' = pageCount d ->
  pageMode d' = pageMode d -> locked d' = locked d ->
  (info d' = info d \/ info d' = dict "Info" d) ->
  (mdoc d = None -> info d' = info d) ->
  cached_values_current d -> cached_values_current d'.
Proof.
  unfold cached_values_current, trailer_mode, dict. intros Hm Hs Hpc Hpm Hlk Hor Hi.
  rewrite Hm, Hs, Hpc, Hpm, Hlk.
  destruct (mdoc d) as [doc|] eqn:Hdoc.
  - intros (H1 & H2 & H3). repeat split; auto.
    destruct Hor as [->| ->]; auto.
  - rewrite Hi by reflexivity. auto.
Qed.

(** X4. In the life cycle the cached values are always those of the current
    document: the defaults while the document handle is null, while the
    document is locked and after a load step that found no Root; the
    engine's page count and the trailer's page mode once the load step has
    run.  So a page count other than 0 is only ever shown for an open,
    unlocked document with a Root, and it is the engine's count for it. *)
Theorem lifecycle_cached_values (w : World) (Hl : lifecycle w) :
  cached_values_current (data w) /\
  (Document_pageCount w <> 0 ->
   mdoc (data w) <> None /\ stream (data w) <> None /\ isLocked w = false /\
   dict "Root" (data w) <> None /\
   Document_pageCount w = fz_count_pages (mdoc (data w)) /\
   Document_pageMode w = trailer_mode (data w)).
Proof.
  assert (H : cached_values_current (data w)).
  { induction Hl as [lc ws st|w f _ IH Hm|w _ IH|w p _ IH|w _ IH|w k _ IH|w _ IH].
    - unfold cached_values_current. cbn. auto.
    - apply cached_load; assumption.
    - rewrite close_eq. cbn. destruct (mdoc (data w)) eqn:Hm; [|exact IH].
      unfold cached_values_current. cbn. auto.
    - apply cached_unlock; assumption.
    - destruct (infoKeys_frame w) as (H1 & H2 & H3 & H4 & H5 & H6 & H7).
      eapply cached_frame; eauto. intros Hm. rewrite (H7 Hm). reflexivity.
    - destruct (infoKey_frame k w) as (H1 & H2 & H3 & H4 & H5 & H6 & H7).
      eapply cached_frame; eauto. intros Hm. rewrite (H7 Hm). reflexivity.
    - destruct (outline_frame w) as (H1 & _). rewrite H1. exact IH. }
  split; [exact H|].
  unfold Document_pageCount, Document_pageMode, isLocked. intros Hpc.
  unfold cached_values_current in H.
  destruct (mdoc (data w)) as [doc|] eqn:Hdoc; [|tauto].
  destruct H as (Hs & _ & H).
  destruct (locked (data w)); [tauto|].
  destruct (dict "Root" (data w)); [|tauto].
  repeat split; try tauto; congruence.
Qed.

(** ** The keys of the Info dictionary *)

Lemma infoKeys_loop (g : Z -> option pdf_obj) (indices : list Z) (keys : list string) :
  fold_left (fun keys i => if pdf_is_name (g i) then keys ++ [pdf_to_name (g i)] else keys)
            indices keys
  = keys ++ map pdf_to_name (List.filter pdf_is_name (map g indices)).
Proof.
  revert keys. induction indices as [|i rest IH]; intros keys; cbn.
  - rewrite app_nil_r. reflexivity.
  - rewrite IH. destruct (pdf_is_name (g i)); cbn; [|reflexivity].
    rewrite <- app_assoc. reflexivity.
Qed.

Lemma infoKeys_eq (w : World) :
  infoKeys w =
  match mdoc (data w) with
  | None => ([], w)
  | Some _ =>
      let w1 := snd (loadInfoDict w) in
      (match info (data w1) with
       | None => []
       | Some _ => info_names (info (data w1))
       end, w1)
  end.
Proof.
  unfold infoKeys, info_names. step. destruct (mdoc (data w)); [|reflexivity].
  destruct (loadInfoDict w) as [[] w1]. cbn [snd]. cbv zeta.
  destruct (info (data w1)) eqn:Hi; [|reflexivity].
  rewrite infoKeys_loop. reflexivity.
Qed.

Lemma loadInfoDict_twice (w : World) :
  snd (loadInfoDict (snd (loadInfoDict w))) = snd (loadInfoDict w).
Proof.
  rewrite (loadInfoDict_eq w). cbn [snd].
  destruct (info (data w)) eqn:Hi.
  - rewrite loadInfoDict_eq, Hi. reflexivity.
  - rewrite loadInfoDict_eq. unfold dict. cbn.
    destruct (pdf_dict_gets (pdf_trailer (mdoc (data w))) "Info"); reflexivity.
Qed.


Lemma log_all_nil (w : World) : log_all [] w = w.
Proof. destruct w. unfold log_all. cbn. rewrite app_nil_r. reflexivity. Qed.

Lemma infoKey_eq (key : string) (w : World) :
  infoKey key w =
  match mdoc (data w) with
  | None => (QString_null, w)
  | Some _ =>
      let w1 := snd (loadInfoDict w) in
      (fst (info_answer key (info (data w1))),
       log_all (snd (info_answer key (info (data w1)))) w1)
  end.
Proof.
  unfold infoKey, info_answer. step. destruct (mdoc (data w)); [|reflexivity].
  destruct (loadInfoDict w) as [[] w1]. cbn [snd]. cbv zeta.
  destruct (info (data w1)) eqn:Hi; [|cbn; rewrite log_all_nil; reflexivity].
  destruct (pdf_dict_gets (Some p) key); [|cbn; rewrite log_all_nil; reflexivity].
  destruct (pdf_is_string _); cbn; [|reflexivity].
  rewrite log_all_nil.
  destruct (pdf_new_utf8_from_pdf_string_obj _); reflexivity.
Qed.

Lemma loadInfoDict_cache (w : World) :
  info (data (snd (loadInfoDict w)))
  = match info (data w) with
    | Some i => Some i
    | None => dict "Info" (data w)
    end.
Proof. rewrite loadInfoDict_eq. destruct (info (data w)) eqn:Hi; cbn; auto. Qed.

(** The answers of the two Info queries depend on the [Data] only. *)
Lemma info_answers_data (key : string) (x y : World) :
  data x = data y ->
  fst (infoKeys x) = fst (infoKeys y) /\ fst (infoKey key x) = fst (infoKey key y).
Proof.
  intros Hd. rewrite !infoKeys_eq, !infoKey_eq, Hd.
  destruct (mdoc (data y)); [|auto]. cbv zeta. cbn [fst].
  rewrite !loadInfoDict_cache, Hd. auto.
Qed.

(** X6. The Info cache is transparent: asking for the keys again gives the same
    list and changes nothing more, [infoKey] behaves the same whether or not
    [infoKeys] ran before it, and after an [infoKey] both queries answer as
    they would have before it. *)
Theorem info_cache_transparent (w : World) (key other : string) :
  infoKeys (snd (infoKeys w)) = infoKeys w /\
  infoKey key (snd (infoKeys w)) = infoKey key w /\
  fst (infoKey key (snd (infoKey other w))) = fst (infoKey key w) /\
  fst (infoKeys (snd (infoKey other w))) = fst (infoKeys w).
Proof.
  pose proof (loadInfoDict_frame w) as (Hm & _).
  pose proof (loadInfoDict_twice w) as Htwice.
  assert (Hk1 : snd (infoKeys w)
                = match mdoc (data w) with Some _ => snd (loadInfoDict w) | None => w end).
  { rewrite infoKeys_eq. destruct (mdoc (data w)); reflexivity. }
  assert (Hafter : forall x : World,
            data x = data (snd (loadInfoDict w)) -> mdoc (data w) <> None ->
            fst (infoKeys x) = fst (infoKeys w) /\
            fst (infoKey key x) = fst (infoKey key w)).
  { intros x Hx Hopen.
    destruct (info_answers_data key x (snd (loadInfoDict w)) Hx) as [-> ->].
    rewrite !infoKeys_eq, !infoKey_eq, Hm.
    destruct (mdoc (data w)); [|congruence]. cbv zeta. rewrite Htwice. auto. }
  split; [|split].
  - rewrite Hk1, (infoKeys_eq w).
    destruct (mdoc (data w)) as [doc|] eqn:Hdoc.
    + rewrite infoKeys_eq, Hm, ?Hdoc. cbv zeta. rewrite Htwice. reflexivity.
    + rewrite infoKeys_eq, Hdoc. reflexivity.
  - rewrite Hk1, (infoKey_eq key w).
    destruct (mdoc (data w)) as [doc|] eqn:Hdoc.
    + rewrite infoKey_eq, Hm, ?Hdoc. cbv zeta. rewrite Htwice. reflexivity.
    + rewrite infoKey_eq, Hdoc. reflexivity.
  - assert (Hd : mdoc (data w) <> None ->
                 data (snd (infoKey other w)) = data (snd (loadInfoDict w))).
    { intros Hopen. rewrite infoKey_eq.
      destruct (mdoc (data w)); [reflexivity | congruence]. }
    destruct (mdoc (data w)) as [doc|] eqn:Hdoc.
    + destruct (Hafter (snd (infoKey other w))) as [H1 H2];
        [apply Hd | |]; try congruence. auto.
    + rewrite (infoKey_eq other w), Hdoc. auto.
Qed.

(** ** The store after [outline] *)

Lemma length_layout (base : nat) (out : fz_outline) :
  length (layout base out) = size out.
Proof.
  revert base. induction out as [|title uri down IHd next IHn]; intros base; cbn;
    [reflexivity|].
  rewrite length_app, IHd, IHn. reflexivity.
Qed.

Lemma alter_add_children_twice (ps qs : list nat) (item : nat) (st : list Outline) :
  alter (add_children qs) item (alter (add_children ps) item st)
  = alter (add_children (ps ++ qs)) item st.
Proof.
  rewrite list_alter_alter_eq. apply list_alter_ext; [|reflexivity].
  intros o _. cbn. apply add_children_app.
Qed.

Lemma convertOutline_layout (out : fz_outline) :
  forall (item : nat) (w : World),
  (item < length (store w))%nat ->
  store (snd (convertOutline out item w))
  = alter (add_children (sibling_ptrs (length (store w)) out)) item (store w)
    ++ layout (length (store w)) out.
Proof.
  induction out as [|title uri down IHd next IHn]; intros item w Hitem.
  - cbn. rewrite app_nil_r. symmetry. apply list_alter_id. apply add_children_nil.
  - cbn [convertOutline]. step.
    set (base := length (store w)).
    set (w2 := {| data := data w; lc_numeric := lc_numeric w; warnings := warnings w;
                  store := alter (fun o => {| m_title := m_title o; m_link := m_link o;
                                              m_children := m_children o ++ [base] |})
                                 item (store w ++ [Outline_of title uri]) |}).
    change (fun o => {| m_title := m_title o; m_link := m_link o;
                        m_children := m_children o ++ [base] |})
      with (add_children [base]) in w2.
    assert (Hst2 : store w2 = alter (add_children [base]) item (store w)
                              ++ [Outline_of title uri]).
    { subst w2. cbn [store]. apply alter_app_l. exact Hitem. }
    assert (Hlen2 : length (store w2) = S base).
    { rewrite Hst2, length_app, length_alter. cbn. subst base. lia. }
    pose proof (IHd base w2) as Hd.
    destruct (convertOutline down base w2) as [[] w3]. cbn [snd] in Hd |- *.
    rewrite Hlen2 in Hd. specialize (Hd ltac:(lia)).
    assert (Hst3 : store w3 = alter (add_children [base]) item (store w)
                              ++ add_children (sibling_ptrs (S base) down)
                                              (Outline_of title uri)
                                 :: layout (S base) down).
    { rewrite Hd, Hst2.
      replace base with (length (alter (add_children [base]) item (store w)) + 0)%nat at 2
        by (rewrite length_alter; subst base; lia).
      rewrite alter_app_r. cbn. rewrite <- app_assoc. reflexivity. }
    assert (Hlen3 : length (store w3) = (base + S (size down))%nat).
    { rewrite Hst3, length_app, length_alter. cbn. rewrite length_layout. subst base. lia. }
    pose proof (IHn item w3) as Hn.
    destruct (convertOutline next item w3) as [[] w4]. cbn [snd] in Hn |- *.
    rewrite Hlen3 in Hn. specialize (Hn ltac:(lia)).
    rewrite Hn, Hst3.
    rewrite alter_app_l by (rewrite length_alter; exact Hitem).
    rewrite alter_add_children_twice.
    cbn [sibling_ptrs layout]. fold base. rewrite <- app_assoc. reflexivity.
Qed.

Lemma stored_node (st : list Outline) (base : nat) title uri down next :
  stored st base (fz_node title uri down next) ->
  st !! base = Some {| m_title := captured_title title;
                       m_link := captured_link uri;
                       m_children := sibling_ptrs (S base) down |} /\
  stored st (S base) down /\
  stored st (base + S (size down)) next.
Proof.
  intros H. split; [|split].
  - specialize (H 0%nat _ eq_refl). rewrite Nat.add_0_r in H. exact H.
  - intros k o Hk. specialize (H (S k) o). cbn [layout] in H.
    replace (S base + k)%nat with (base + S k)%nat by lia. apply H.
    rewrite lookup_cons. cbv iota. apply lookup_app_l_Some. exact Hk.
  - intros k o Hk. specialize (H (S (size down + k)) o). cbn [layout] in H.
    replace (base + S (size down) + k)%nat with (base + S (size down + k))%nat by lia.
    apply H. rewrite lookup_cons. cbv iota.
    rewrite lookup_app_r by (rewrite length_layout; lia).
    rewrite length_layout. replace (size down + k - size down)%nat with k by lia.
    exact Hk.
Qed.

Lemma stored_app (pre post : list Outline) (base : nat) (out : fz_outline) :
  length pre = base -> stored (pre ++ layout base out ++ post) base out.
Proof.
  intros Hlen k o Hk. rewrite lookup_app_r by lia.
  replace (base + k - length pre)%nat with k by lia.
  apply lookup_app_l_Some. exact Hk.
Qed.

Lemma read_tree_stored (st : list Outline) (out : fz_outline) :
  forall base fuel, stored st base out -> (depth out <= fuel)%nat ->
  mapM (read_tree fuel st) (sibling_ptrs base out) = Some (mirror out).
Proof.
  induction out as [|title uri down IHd next IHn]; intros base fuel Hst Hfuel;
    [reflexivity|].
  destruct (stored_node _ _ _ _ _ _ Hst) as (Hp & Hd & Hn).
  cbn [depth] in Hfuel. destruct fuel as [|fuel']; [lia|].
  cbn [sibling_ptrs mirror].
  change (mapM (read_tree (S fuel') st) (base :: ?ps))
    with (read_tree (S fuel') st base ≫= λ y, mapM (read_tree (S fuel') st) ps ≫= λ k, mret (y :: k)).
  rewrite (IHn _ (S fuel') Hn) by lia.
  cbn [read_tree]. rewrite Hp. cbn [m_children m_title m_link].
  rewrite (IHd _ fuel' Hd) by lia. reflexivity.
Qed.

Lemma delete_stored (st : list Outline) (out : fz_outline) :
  forall base fuel, stored st base out -> (depth out <= fuel)%nat ->
  exists freed, mapM (delete_Outline fuel st) (sibling_ptrs base out) = Some freed /\
                concat freed = postorder_ptrs base out.
Proof.
  induction out as [|title uri down IHd next IHn]; intros base fuel Hst Hfuel.
  - exists []. split; reflexivity.
  - destruct (stored_node _ _ _ _ _ _ Hst) as (Hp & Hd & Hn).
    cbn [depth] in Hfuel. destruct fuel as [|fuel']; [lia|].
    destruct (IHn _ (S fuel') Hn) as (fn & Hfn & Hcn); [lia|].
    destruct (IHd _ fuel' Hd) as (fd & Hfd & Hcd); [lia|].
    exists ((concat fd ++ [base]) :: fn). split.
    + cbn [sibling_ptrs].
      change (mapM (delete_Outline (S fuel') st) (base :: ?ps))
        with (delete_Outline (S fuel') st base ≫= λ y,
              mapM (delete_Outline (S fuel') st) ps ≫= λ k, mret (y :: k)).
      rewrite Hfn. cbn [delete_Outline]. rewrite Hp. cbn [m_children].
      rewrite Hfd. reflexivity.
    + cbn. rewrite Hcd, Hcn, <- app_assoc. reflexivity.
Qed.

Lemma postorder_ptrs_seq (out : fz_outline) :
  forall base, Permutation (postorder_ptrs base out) (seq base (size out)).
Proof.
  induction out as [|title uri down IHd next IHn]; intros base; [reflexivity|].
  cbn [postorder_ptrs size seq app].
  change ([base] ++ ?l) with (base :: l).
  rewrite <- Permutation_middle. constructor.
  rewrite seq_app. apply Permutation_app; [apply IHd|].
  replace (S base + size down)%nat with (base + S (size down))%nat by lia. apply IHn.
Qed.

Lemma outline_store (w : World) title uri down next :
  fz_load_outline (mdoc (data w)) = fz_node title uri down next ->
  let out := fz_node title uri down next in
  let root := length (store w) in
  fst (outline w) = Some root /\
  data (snd (outline w)) = data w /\
  store (snd (outline w))
  = store w ++ layout root (fz_node None None out fz_null).
Proof.
  intros Hout. cbv zeta.
  pose proof (outline_frame w) as (Hd & _).
  split; [|split; [exact Hd|]].
  - unfold outline. step. rewrite Hout. cbv beta iota.
    destruct (convertOutline _ _ _) as [[] w']. reflexivity.
  - unfold outline. step. rewrite Hout. cbv beta iota.
    set (out := fz_node title uri down next).
    set (w1 := {| data := data w; lc_numeric := lc_numeric w; warnings := warnings w;
                  store := store w ++ [Outline_root] |}).
    pose proof (convertOutline_layout out (length (store w)) w1) as H.
    destruct (convertOutline out (length (store w)) w1) as [[] w']. cbn [snd] in H |- *.
    subst w1. cbn [store] in H. rewrite length_app in H. cbn [length] in H.
    rewrite H by lia.
    replace (length (store w)) with (length (store w) + 0)%nat at 2 by lia.
    rewrite alter_app_r. cbn [layout alter list_alter]. rewrite app_nil_r.
    rewrite <- app_assoc. cbn.
    replace (length (store w) + 1)%nat with (S (length (store w))) by lia.
    reflexivity.
Qed.

(** ** Reading the version *)

Lemma version_key_order (major minor major' minor' : Z) :
  0 <= major < 100 -> 0 <= minor < 100 -> 0 <= major' < 100 -> 0 <= minor' < 100 ->
  10 * major + minor < 10 * major' + minor' ->
  (SF2Q (version_float major minor) < SF2Q (version_float major' minor'))%Q.
Proof.
  intros Ha Hb Ha' Hb' Hlt.
  destruct (version_accuracy major minor Ha Hb) as (_ & H).
  destruct (version_accuracy major' minor' Ha' Hb') as (_ & H').
  apply Qabs_Qle_condition in H as [Hlo Hhi].
  apply Qabs_Qle_condition in H' as [Hlo' Hhi'].
  unfold version_value in *.
  assert (Hstep : (inject_Z 10 * inject_Z major + inject_Z minor + 1
                   <= inject_Z 10 * inject_Z major' + inject_Z minor')%Q).
  { change 1%Q with (inject_Z 1).
    rewrite <- !inject_Z_mult, <- !inject_Z_plus. rewrite <- Zle_Qle. lia. }
  assert (Q1 : (0 <= inject_Z major)%Q) by (rewrite <- (Zle_Qle 0); lia).
  assert (Q2 : (0 <= inject_Z minor)%Q) by (rewrite <- (Zle_Qle 0); lia).
  assert (Q3 : (inject_Z major' <= 99)%Q) by (rewrite <- (Zle_Qle _ 99); lia).
  assert (Q4 : (inject_Z minor' <= 99)%Q) by (rewrite <- (Zle_Qle _ 99); lia).
  change (inject_Z 10) with 10%Q in *.
  unfold Qdiv in *. change (/ 10)%Q with (1 # 10)%Q in *.
  set (a := inject_Z major) in *. set (b := inject_Z minor) in *.
  set (a' := inject_Z major') in *. set (b' := inject_Z minor') in *.
  set (v := SF2Q (version_float major minor)) in *.
  set (v' := SF2Q (version_float major' minor')) in *.
  lra.
Qed.

(** X11. The result counts the minor number in tenths: for integers from 0
    to 99 a smaller [10 * major + minor] gives a strictly smaller [float].
    With one-digit minor numbers that is the order of versions: the result
    of one version is smaller than that of another exactly when its major
    number is smaller, or the major numbers are equal and its minor number
    is smaller, and two different versions never give the same result.
    With a minor number above 9 it is not: 1.15 and 2.5 both give 2.5. *)
Theorem version_order (major minor major' minor' : Z) :
  0 <= major < 100 -> 0 <= minor < 100 -> 0 <= major' < 100 -> 0 <= minor' < 100 ->
  (10 * major + minor < 10 * major' + minor' ->
   (SF2Q (version_float major minor) < SF2Q (version_float major' minor'))%Q) /\
  (minor < 10 -> minor' < 10 ->
   ((major < major' \/ (major = major' /\ minor < minor')) <->
    (SF2Q (version_float major minor) < SF2Q (version_float major' minor'))%Q) /\
   (version_float major minor = version_float major' minor' ->
    major = major' /\ minor = minor')) /\
  version_float 1 15 = version_float 2 5.
Proof.
  intros Ha Hb Ha' Hb'.
  split; [apply version_key_order; assumption|].
  split; [|vm_compute; reflexivity].
  intros Hm Hm'.
  assert (Hgt : 10 * major' + minor' < 10 * major + minor ->
                (SF2Q (version_float major' minor') < SF2Q (version_float major minor))%Q)
    by (apply version_key_order; assumption).
  assert (Hlt : 10 * major + minor < 10 * major' + minor' ->
                (SF2Q (version_float major minor) < SF2Q (version_float major' minor'))%Q)
    by (apply version_key_order; assumption).
  split; [split|].
  - intros Hlex. apply Hlt. lia.
  - intros Hq.
    destruct (Z_lt_le_dec (10 * major + minor) (10 * major' + minor')) as [H|H]; [lia|].
    destruct (Z.eq_dec (10 * major + minor) (10 * major' + minor')) as [He|Hne].
    + assert (major = major' /\ minor = minor') as [-> ->] by lia.
      apply Qlt_irrefl in Hq. destruct Hq.
    + assert (Hq' := Hgt ltac:(lia)).
      destruct (Qlt_irrefl _ (Qlt_trans _ _ _ Hq Hq')).
  - intros Heq.
    destruct (Z.eq_dec (10 * major + minor) (10 * major' + minor')) as [He|Hne]; [lia|].
    destruct (Z_lt_le_dec (10 * major + minor) (10 * major' + minor')) as [H|H].
    + specialize (Hlt H). rewrite Heq in Hlt. destruct (Qlt_irrefl _ Hlt).
    + specialize (Hgt ltac:(lia)). rewrite Heq in Hgt. destruct (Qlt_irrefl _ Hgt).
Qed.

(** X12. The version read from a format string does not depend on how much
    white space follows "PDF" (none included) nor on what follows the second
    number, as long as that does not go on with a digit: the result is
    [float(major + minor / 10.0)] of the two numerals as stored in an [int],
    which are the numbers written when both fit an [int]. *)
Theorem pdfVersion_lenient (w : World) (doc : fz_document)
  (sp : list ascii) (ds1 ds2 : list nat) (rest : string)
  (Hopen : mdoc (data w) = Some doc)
  (Hformat : fz_lookup_format (Some doc)
             = Some ("PDF" ++ string_of_list_ascii sp ++ numeral ds1 ++ "."
                     ++ numeral ds2 ++ rest)%string)
  (Hsp : Forall (fun c => isspace c = true) sp)
  (Hne1 : ds1 <> []) (Hne2 : ds2 <> [])
  (Hd1 : Forall (fun d => (d < 10)%nat) ds1)
  (Hd2 : Forall (fun d => (d < 10)%nat) ds2)
  (Hrest : no_digit_ahead rest) :
  pdfVersion w = version_float (int_stored (numeral_value ds1))
                               (int_stored (numeral_value ds2)) /\
  (numeral_value ds1 < 2 ^ 31 -> numeral_value ds2 < 2 ^ 31 ->
   pdfVersion w = version_float (numeral_value ds1) (numeral_value ds2)).
Proof.
  assert (Hv : pdfVersion w = version_float (int_stored (numeral_value ds1))
                                            (int_stored (numeral_value ds2))).
  { unfold pdfVersion. rewrite Hopen, Hformat.
    assert (Hscan : sscanf_PDF_d_d ("PDF" ++ string_of_list_ascii sp ++ numeral ds1
                                    ++ "." ++ numeral ds2 ++ rest)%string
                    = [int_stored (numeral_value ds1); int_stored (numeral_value ds2)]).
    { apply sscanf_PDF_reads.
      exists sp, None, ds1, [], None, ds2, rest.
      split; [reflexivity|]. split; [assumption|]. split; [constructor|].
      repeat (split; [assumption|]). split; reflexivity. }
    rewrite Hscan. reflexivity. }
  split; [exact Hv|]. intros Hfit1 Hfit2.
  pose proof (numeral_value_nonneg ds1). pose proof (numeral_value_nonneg ds2).
  rewrite Hv, !int_stored_fits by lia. reflexivity.
Qed.

(** ** The objects [outline] creates *)

Lemma layout_top (base : nat) (out : fz_outline) :
  layout base (fz_node None None out fz_null)
  = {| m_title := QString_null; m_link := "";
       m_children := sibling_ptrs (S base) out |} :: layout (S base) out.
Proof. cbn [layout]. rewrite app_nil_r. reflexivity. Qed.

(** X8. [outline] appends to the free store, in this order, the root and the
    objects of the engine list laid out depth-first, each holding the
    pointers of its children; it creates one object per engine node and one
    for the root, and changes no object that was there.  With no engine
    outline it creates nothing. *)
Theorem outline_builds_layout (w : World) :
  match fz_load_outline (mdoc (data w)) with
  | fz_null => outline w = (None, w)
  | fz_node _ _ _ _ as out =>
      let root := length (store w) in
      fst (outline w) = Some root /\
      store (snd (outline w))
      = store w
        ++ {| m_title := QString_null; m_link := "";
              m_children := sibling_ptrs (S root) out |}
           :: layout (S root) out /\
      length (store (snd (outline w))) = (length (store w) + 1 + size out)%nat
  end.
Proof.
  destruct (fz_load_outline (mdoc (data w))) as [|title uri down next] eqn:Hout.
  - apply outline_absent. exact Hout.
  - destruct (outline_store w _ _ _ _ Hout) as (Hr & _ & Hst). cbv zeta in *.
    rewrite layout_top in Hst.
    split; [exact Hr|]. split; [exact Hst|].
    rewrite Hst, length_app. cbn [length]. rewrite length_layout. lia.
Qed.

(** X9. Deleting the root that [outline] returned frees every object that call
    created, each exactly once, children before their parent, and no other
    object. *)
Theorem outline_delete_frees_all (w : World) (fuel : nat) :
  match fz_load_outline (mdoc (data w)) with
  | fz_null => fst (outline w) = None
  | fz_node _ _ _ _ as out =>
      let root := length (store w) in
      let w' := snd (outline w) in
      (depth out < fuel)%nat ->
      delete_Outline fuel (store w') root
      = Some (postorder_ptrs (S root) out ++ [root]) /\
      Permutation (postorder_ptrs (S root) out ++ [root])
                  (seq root (length (store w') - root)) /\
      NoDup (postorder_ptrs (S root) out ++ [root])
  end.
Proof.
  destruct (fz_load_outline (mdoc (data w))) as [|title uri down next] eqn:Hout.
  - rewrite outline_absent by exact Hout. reflexivity.
  - cbv zeta. intros Hfuel.
    set (out := fz_node title uri down next) in *.
    destruct (outline_store w _ _ _ _ Hout) as (_ & _ & Hst). cbv zeta in Hst.
    fold out in Hst.
    set (top := fz_node None None out fz_null) in *.
    assert (Hstored : stored (store (snd (outline w))) (length (store w)) top).
    { rewrite Hst. rewrite <- (app_nil_r (layout _ top)). apply stored_app. reflexivity. }
    destruct (delete_stored _ top _ fuel Hstored) as (freed & Hfreed & Hconcat).
    { subst top. cbn [depth]. lia. }
    assert (Hperm : Permutation (postorder_ptrs (S (length (store w))) out
                                 ++ [length (store w)])
                                (seq (length (store w))
                                     (length (store (snd (outline w)))
                                      - length (store w)))).
    { rewrite Hst, length_app, length_layout.
      replace (length (store w) + size top - length (store w))%nat with (size top) by lia.
      pose proof (postorder_ptrs_seq top (length (store w))) as Hp.
      subst top. cbn [postorder_ptrs] in Hp. rewrite app_nil_r in Hp. exact Hp. }
    split; [|split; [exact Hperm|]].
    + subst top. cbn [sibling_ptrs] in Hfreed.
      change (mapM (delete_Outline fuel (store (snd (outline w)))) [length (store w)])
        with (delete_Outline fuel (store (snd (outline w))) (length (store w)) ≫= λ y,
              mret [y]) in Hfreed.
      destruct (delete_Outline fuel (store (snd (outline w))) (length (store w)))
        as [l|]; [|discriminate].
      cbn [mbind option_bind mret option_ret] in Hfreed. injection Hfreed as <-.
      cbn [concat] in Hconcat. rewrite app_nil_r in Hconcat.
      rewrite Hconcat. cbn [postorder_ptrs]. rewrite app_nil_r. reflexivity.
    + rewrite Hperm. apply NoDup_seq.
Qed.

(** X10. Every [outline] call builds a tree of its own: a second call returns a
    new root further on in the store, leaves the first tree as it was, and
    the two trees read back equal and share no object. *)
Theorem outline_twice (w : World) (fuel : nat) :
  let w1 := snd (outline w) in
  let w2 := snd (outline w1) in
  match fz_load_outline (mdoc (data w)) with
  | fz_null => fst (outline w1) = None /\ w2 = w
  | fz_node _ _ _ _ as out =>
      let r1 := length (store w) in
      let r2 := length (store w1) in
      fst (outline w) = Some r1 /\ fst (outline w1) = Some r2 /\
      r2 = (r1 + 1 + size out)%nat /\
      ((depth out < fuel)%nat ->
       read_tree fuel (store w1) r1 = Some (OutlineNode QString_null "" (mirror out)) /\
       read_tree fuel (store w2) r1 = Some (OutlineNode QString_null "" (mirror out)) /\
       read_tree fuel (store w2) r2 = Some (OutlineNode QString_null "" (mirror out)) /\
       exists freed1 freed2,
         delete_Outline fuel (store w2) r1 = Some freed1 /\
         delete_Outline fuel (store w2) r2 = Some freed2 /\
         forall p, In p freed1 -> ~ In p freed2)
  end.
Proof.
  cbv zeta.
  destruct (fz_load_outline (mdoc (data w))) as [|title uri down next] eqn:Hout.
  - rewrite (outline_absent w Hout). cbn [snd].
    rewrite (outline_absent w Hout). auto.
  - set (out := fz_node title uri down next) in *.
    destruct (outline_store w _ _ _ _ Hout) as (Hr1 & Hd1 & Hst1). cbv zeta in Hst1.
    fold out in Hst1.
    assert (Hout1 : fz_load_outline (mdoc (data (snd (outline w)))) = out)
      by (rewrite Hd1; exact Hout).
    destruct (outline_store _ _ _ _ _ Hout1) as (Hr2 & _ & Hst2). cbv zeta in Hst2.
    fold out in Hst2.
    set (top := fz_node None None out fz_null) in *.
    set (w1 := snd (outline w)) in *. set (w2 := snd (outline w1)) in *.
    assert (Hlen1 : length (store w1) = (length (store w) + 1 + size out)%nat).
    { rewrite Hst1, length_app, length_layout. subst top. cbn [size]. lia. }
    assert (S1 : stored (store w1) (length (store w)) top).
    { rewrite Hst1. rewrite <- (app_nil_r (layout _ top)). apply stored_app. reflexivity. }
    assert (S21 : stored (store w2) (length (store w)) top).
    { rewrite Hst2, Hst1, <- app_assoc. apply stored_app. reflexivity. }
    assert (S22 : stored (store w2) (length (store w1)) top).
    { rewrite Hst2. rewrite <- (app_nil_r (layout _ top)). apply stored_app. reflexivity. }
    split; [exact Hr1|]. split; [exact Hr2|]. split; [exact Hlen1|].
    intros Hfuel.
    assert (Hdepth : (depth top <= fuel)%nat) by (subst top; cbn [depth]; lia).
    assert (Hread : forall st base, stored st base top ->
              read_tree fuel st base = Some (OutlineNode QString_null "" (mirror out))).
    { intros st base Hs. pose proof (read_tree_stored st top base fuel Hs Hdepth) as H.
      subst top. cbn [sibling_ptrs mirror] in H.
      change (mapM (read_tree fuel st) [base])
        with (read_tree fuel st base ≫= λ y, mret [y]) in H.
      destruct (read_tree fuel st base) as [t|]; [|discriminate].
      cbn [mbind option_bind mret option_ret] in H. injection H as ->. reflexivity. }
    assert (Hdel : forall st base, stored st base top ->
              exists freed, delete_Outline fuel st base = Some freed /\
                            Permutation freed (seq base (size top))).
    { intros st base Hs.
      destruct (delete_stored st top base fuel Hs Hdepth) as (freed & Hf & Hc).
      subst top. cbn [sibling_ptrs] in Hf.
      change (mapM (delete_Outline fuel st) [base])
        with (delete_Outline fuel st base ≫= λ y, mret [y]) in Hf.
      destruct (delete_Outline fuel st base) as [l|]; [|discriminate].
      cbn [mbind option_bind mret option_ret] in Hf. injection Hf as <-.
      cbn [concat] in Hc. rewrite app_nil_r in Hc.
      exists l. split; [reflexivity|]. rewrite Hc. apply postorder_ptrs_seq. }
    split; [apply Hread, S1|]. split; [apply Hread, S21|]. split; [apply Hread, S22|].
    destruct (Hdel _ _ S21) as (f1 & Hf1 & Hp1).
    destruct (Hdel _ _ S22) as (f2 & Hf2 & Hp2).
    exists f1, f2. split; [exact Hf1|]. split; [exact Hf2|].
    intros p Hin1 Hin2.
    apply (Permutation_in _ Hp1), in_seq in Hin1.
    apply (Permutation_in _ Hp2), in_seq in Hin2.
    subst top. cbn [size] in *. lia.
Qed.

(** ** What the queries leave alone *)

(** X7. No query changes the handles, the page count, the page mode, the locked
    flag or the locale.  [infoKeys] changes nothing but the Info cache;
    [infoKey] leaves the free store alone and only ever adds to the log;
    [outline] leaves the [Data] and the log alone and only ever adds to the
    free store.  So [pdfVersion] answers the same after any of them. *)
Theorem queries_keep_state (w : World) (key : string) :
  let kept (w' : World) :=
    mdoc (data w') = mdoc (data w) /\ stream (data w') = stream (data w) /\
    pageCount (data w') = pageCount (data w) /\ pageMode (data w') = pageMode (data w) /\
    locked (data w') = locked (data w) /\ lc_numeric w' = lc_numeric w /\
    pdfVersion w' = pdfVersion w in
  (kept (snd (infoKeys w)) /\
   warnings (snd (infoKeys w)) = warnings w /\ store (snd (infoKeys w)) = store w) /\
  (kept (snd (infoKey key w)) /\
   store (snd (infoKey key w)) = store w /\
   exists lines, warnings (snd (infoKey key w)) = warnings w ++ lines) /\
  (kept (snd (outline w)) /\
   data (snd (outline w)) = data w /\ warnings (snd (outline w)) = warnings w /\
   exists objects, store (snd (outline w)) = store w ++ objects).
Proof.
  cbv zeta.
  assert (Hv : forall w' : World, mdoc (data w') = mdoc (data w) ->
                                  pdfVersion w' = pdfVersion w)
    by (intros w' Hm; unfold pdfVersion; rewrite Hm; reflexivity).
  destruct (infoKeys_frame w) as (K1 & K2 & K3 & K4 & K5 & _).
  destruct (infoKey_frame key w) as (I1 & I2 & I3 & I4 & I5 & _).
  destruct (outline_frame w) as (O1 & O2 & O3).
  pose proof (loadInfoDict_frame w) as (_ & _ & _ & _ & _ & L6 & L7 & L8).
  assert (Kw : lc_numeric (snd (infoKeys w)) = lc_numeric w /\
               warnings (snd (infoKeys w)) = warnings w /\
               store (snd (infoKeys w)) = store w).
  { rewrite infoKeys_eq. destruct (mdoc (data w)); cbn [snd]; auto. }
  assert (Iw : lc_numeric (snd (infoKey key w)) = lc_numeric w /\
               store (snd (infoKey key w)) = store w /\
               exists lines, warnings (snd (infoKey key w)) = warnings w ++ lines).
  { rewrite infoKey_eq. destruct (mdoc (data w)); cbn [snd].
    - unfold log_all. cbn [lc_numeric store warnings]. rewrite L6, L7, L8.
      repeat split; eauto.
    - repeat split; auto. exists []. rewrite app_nil_r. reflexivity. }
  destruct Kw as (Kl & Kws & Kst). destruct Iw as (Il & Ist & Iws).
  split; [|split].
  - repeat split; auto.
  - repeat split; auto.
  - rewrite O1. repeat split; auto; try (apply Hv; rewrite O1; reflexivity).
    destruct (fz_load_outline (mdoc (data w))) as [|title uri down next] eqn:Hout.
    + rewrite (outline_absent w Hout). exists []. rewrite app_nil_r. reflexivity.
    + destruct (outline_store w _ _ _ _ Hout) as (_ & _ & Hst). eexists. exact Hst.
Qed.

(** ** Opening again *)

(** What [load] returns and the [Data] it leaves depend on the [Data] it
    starts from only. *)
Lemma load_data_only (x y : World) (fileName : string) :
  data x = data y ->
  fst (load fileName x) = fst (load fileName y) /\
  data (snd (load fileName x)) = data (snd (load fileName y)).
Proof.
  intros Hd. unfold load. step. rewrite Hd.
  destruct (fz_open_file (encodeName fileName)) as [s|]; [|cbn; auto].
  destruct (fz_open_document_with_stream (Some s)) as [[doc|]|];
    try solve [cbn; auto].
  cbn -[Data_load]. destruct (fz_needs_password (Some doc)); cbn -[Data_load]; [auto|].
  rewrite !Data_load_eq. unfold dict. cbn.
  destruct (pdf_dict_gets (pdf_trailer (Some doc)) "Root"); cbn; auto.
Qed.

(** X2. A [Document] can be used again after [close]: closing an open document
    and loading a file gives the same result and the same handles and cached
    values as loading that file into a new [Document]; nothing of the
    document that was open before remains. *)
Theorem load_after_close (w : World) (fileName : string)
  (lc : string) (ws : list string) (st : list Outline)
  (Hopen : mdoc (data w) <> None) :
  fst (load fileName (snd (close w))) = fst (load fileName (new_Document lc ws st)) /\
  data (snd (load fileName (snd (close w))))
  = data (snd (load fileName (new_Document lc ws st))).
Proof.
  apply load_data_only. rewrite close_eq. cbn [snd].
  destruct (mdoc (data w)); [reflexivity | congruence].
Qed.

(** ** Trying passwords in turn *)

Lemma unlock_each_cons (p : string) (ps : list string) (w : World) :
  unlock_each (p :: ps) w
  = (fst (unlock p w) :: fst (unlock_each ps (snd (unlock p w))),
     snd (unlock_each ps (snd (unlock p w)))).
Proof.
  cbn [unlock_each]. unfold bind, ret.
  destruct (unlock p w) as [r w1]. cbn [fst snd].
  destruct (unlock_each ps w1); reflexivity.
Qed.

Lemma unlock_each_app (first later : list string) (w : World) :
  unlock_each (first ++ later) w
  = (fst (unlock_each first w) ++ fst (unlock_each later (snd (unlock_each first w))),
     snd (unlock_each later (snd (unlock_each first w)))).
Proof.
  revert w. induction first as [|p ps IH]; intros w.
  - cbn. destruct (unlock_each later w); reflexivity.
  - cbn [app]. rewrite !unlock_each_cons, IH. reflexivity.
Qed.

Lemma unlock_each_unlocked (passwords : list string) (w : World) :
  locked (data w) = false ->
  unlock_each passwords w = (map (fun _ => false) passwords, w).
Proof.
  intros Hlk. induction passwords as [|p ps IH]; [reflexivity|].
  rewrite unlock_each_cons, (unlock_not_locked _ _ Hlk). cbn [fst snd].
  rewrite IH. reflexivity.
Qed.

(** X13. Passwords tried in turn on a locked document whose trailer has a
    Root: every attempt before the first accepted password returns false, the
    accepted one returns true and unlocks the document exactly as it would
    have as the first attempt, and every attempt after it returns false
    without effect. *)
Theorem unlock_retry (w : World) (rejected : list string) (good : string)
  (later : list string)
  (Hlocked : isLocked w = true)
  (Hrejected : Forall (fun p => fz_authenticate_password (mdoc (data w)) p = false)
                      rejected)
  (Hgood : fz_authenticate_password (mdoc (data w)) good = true)
  (Hroot : dict "Root" (data w) <> None) :
  unlock_each (rejected ++ good :: later) w
  = (map (fun _ => false) rejected ++ true :: map (fun _ => false) later,
     snd (unlock good w)) /\
  isLocked (snd (unlock good w)) = false /\
  Document_pageCount (snd (unlock good w)) = fz_count_pages (mdoc (data w)).
Proof.
  assert (Hu : fst (unlock good w) = true /\ locked (data (snd (unlock good w))) = false /\
               pageCount (data (snd (unlock good w))) = fz_count_pages (mdoc (data w))).
  { unfold isLocked in Hlocked. rewrite unlock_eq, Hlocked, Hgood. cbn [negb].
    cbv zeta. rewrite Data_load_eq. unfold dict in *. cbn.
    destruct (pdf_dict_gets (pdf_trailer (mdoc (data w))) "Root"); [|congruence].
    cbn. auto. }
  destruct Hu as (Hr & Hlk & Hpc).
  split; [|split; [exact Hlk | exact Hpc]].
  rewrite unlock_each_app, (unlock_each_rejected _ _ Hrejected). cbn [fst snd].
  rewrite unlock_each_cons, Hr, (unlock_each_unlocked later _ Hlk). reflexivity.
Qed.

(** ** The locale after [load] *)

(** X14. [load] leaves the process in the "C" numeric locale whenever the
    stream opened, whatever happens afterwards, and does not touch the locale
    when the stream did not open: the locale after the call is the one before
    it exactly when the file could not be opened or the locale was "C"
    already. *)
Theorem load_leaves_C_locale (w : World) (fileName : string) :
  lc_numeric (snd (load fileName w))
  = match fz_open_file (encodeName fileName) with
    | Some _ => "C"
    | None => lc_numeric w
    end /\
  (lc_numeric (snd (load fileName w)) = lc_numeric w <->
   fz_open_file (encodeName fileName) = None \/ lc_numeric w = "C").
Proof.
  rewrite load_locale.
  destruct (fz_open_file (encodeName fileName)) as [s|]; split; try reflexivity.
  - split; [intros <-; auto | intros [H|H]; [discriminate | congruence]].
  - split; auto.
Qed.

End MoreProperties.

(** * The model run on the small engine *)

Module Runs.
Import Sample.

Lemma lifecycle_w0 : lifecycle w0.
Proof. apply lifecycle_new. Qed.

Lemma lifecycle_plain : lifecycle plain.
Proof. apply lifecycle_load; [apply lifecycle_w0 | reflexivity]. Qed.

Lemma lifecycle_secret : lifecycle secret.
Proof. apply lifecycle_load; [apply lifecycle_w0 | reflexivity]. Qed.

Lemma lifecycle_noroot : lifecycle noroot.
Proof. apply lifecycle_load; [apply lifecycle_w0 | reflexivity]. Qed.

Lemma lifecycle_broken : lifecycle broken.
Proof. apply lifecycle_load; [apply lifecycle_w0 | reflexivity]. Qed.

Example load_plain :
  load "plain.pdf" w0
  = (true, {| data := {| mdoc := Some 1%nat; stream := Some 1%nat; pageCount := 3;
                         info := None; pageMode := UseOutlines; locked := false |};
              lc_numeric := "C"; warnings := []; store := [] |}).
Proof. reflexivity. Qed.

Example load_secret_then_unlock :
  isLocked secret = true /\ Document_pageCount secret = 0 /\
  unlock_each ["guess"; "sesame"; "sesame"] secret
  = ([false; true; false],
     {| data := {| mdoc := Some 2%nat; stream := Some 2%nat; pageCount := 5;
                   info := None; pageMode := UseNone; locked := false |};
        lc_numeric := "C"; warnings := []; store := [] |}).
Proof. repeat split. Qed.

Example infoKeys_plain :
  fst (infoKeys plain) = ["Title"; "Author"; "Pages"; "Answer"].
Proof. reflexivity. Qed.

Example infoKey_plain :
  fst (infoKey "Title" plain) = QString_text "Report" /\
  fst (infoKey "Author" plain) = QString_text "A. Author" /\
  fst (infoKey "Pages" plain) = QString_null /\
  warnings (snd (infoKey "Pages" plain)) = ["info object not a string!"] /\
  fst (infoKey "Subject" plain) = QString_null /\
  warnings (snd (infoKey "Subject" plain)) = [].
Proof. repeat split. Qed.

(** The bookmarks of the plain file: two chapters, the first with two
    sections. *)
Example outline_plain :
  fst (outline plain) = Some 0%nat /\
  read_tree 3 (store (snd (outline plain))) 0
  = Some (OutlineNode QString_null ""
            [OutlineNode (QString_text "Chapter 1") "#1"
               [OutlineNode (QString_text "Section 1.1") "#2" [];
                OutlineNode (QString_text "Section 1.2") "" []];
             OutlineNode QString_null "#9" []]) /\
  map m_children (store (snd (outline plain))) = [[1; 4]; [2; 3]; []; []; []]%nat.
Proof. split; [|split]; reflexivity. Qed.

Example pdfVersion_plain : pdfVersion plain = S754_finite false 14260634 (-23).
Proof. reflexivity. Qed.

(** What ["PDF %d.%d"] reads: white space is optional after "PDF" and
    allowed after the dot, each number may carry a sign, and text after the
    second number is ignored; one number, or none, is not a version. *)
Example sscanf_shapes :
  sscanf_PDF_d_d "PDF 1.7" = [1; 7] /\
  sscanf_PDF_d_d "PDF1.7" = [1; 7] /\
  sscanf_PDF_d_d "PDF-2.0" = [-2; 0] /\
  sscanf_PDF_d_d "PDF 1. 7" = [1; 7] /\
  sscanf_PDF_d_d "PDF 1.+7x" = [1; 7] /\
  sscanf_PDF_d_d "PDF 1.15 (linearized)" = [1; 15] /\
  sscanf_PDF_d_d "PDF 1.-" = [1] /\
  sscanf_PDF_d_d "PDF 1 .7" = [1] /\
  sscanf_PDF_d_d "PDF 1,7" = [1] /\
  sscanf_PDF_d_d "PDF .7" = [] /\
  sscanf_PDF_d_d "pdf 1.7" = [] /\
  sscanf_PDF_d_d " PDF 1.7" = [] /\
  sscanf_PDF_d_d "" = [].
Proof. repeat split. Qed.

(** Numbers that do not fit an [int]: the low 32 bits of the [long] that the
    digits convert to. *)
Example sscanf_int_overflow :
  sscanf_PDF_d_d "PDF 2147483647.0" = [2147483647; 0] /\
  sscanf_PDF_d_d "PDF 2147483648.0" = [-2147483648; 0] /\
  sscanf_PDF_d_d "PDF -2147483648.0" = [-2147483648; 0] /\
  sscanf_PDF_d_d "PDF 4294967296.5" = [0; 5] /\
  sscanf_PDF_d_d "PDF 4294967297.4294967298" = [1; 2] /\
  sscanf_PDF_d_d "PDF 9223372036854775808.1" = [-1; 1] /\
  sscanf_PDF_d_d "PDF -9223372036854775809.2" = [0; 2] /\
  sscanf_PDF_d_d "PDF 99999999999999999999999.3" = [-1; 3].
Proof. repeat split. Qed.

Example pdfVersion_secret :
  sscanf_PDF_d_d "PDF 2" = [2] /\ pdfVersion (snd (unlock "sesame" secret)) = S754_zero false.
Proof. split; reflexivity. Qed.

End Runs.

(** * The theorems at the small engine *)

Import Sample.

Lemma load_parse_failure_locale_witness :
  lc_numeric Sample.w0 = "de_DE.UTF-8" /\
  fst (load "broken.pdf" Sample.w0) = false /\
  lc_numeric (snd (load "broken.pdf" Sample.w0)) = "C".
Proof.
  split; [reflexivity|].
  apply (load_parse_failure_locale Sample.w0 "broken.pdf" 4%nat); reflexivity.
Defined.

Lemma closed_document_queries_witness :
  queries_empty (snd (close Sample.plain)) "Title" /\
  queries_empty Sample.w0 "Title".
Proof.
  pose proof (closed_document_queries (E := Sample.engine) (QT := Sample.qt)
                eq_refl Sample.plain "Title" "de_DE.UTF-8" [] []) as [[H1 _] H2].
  split; [exact H1 | exact H2].
Defined.

Lemma load_parse_failure_stream_witness :
  lifecycle Sample.broken /\ lifecycle (snd (close Sample.broken)) /\
  mdoc (data Sample.broken) = None /\ stream (data Sample.broken) = Some 4%nat /\
  mdoc (data (snd (close Sample.broken))) = None /\
  stream (data (snd (close Sample.broken))) = Some 4%nat.
Proof.
  apply (load_parse_failure_stream Sample.w0 "broken.pdf" 4%nat Runs.lifecycle_w0);
    reflexivity.
Defined.

Lemma close_leaves_stream_after_parse_failure_witness :
  lifecycle Sample.broken /\
  stream (data (snd (close Sample.broken))) = Some 4%nat /\
  ~ close_fully_resets Sample.broken /\
  data (snd (close Sample.plain)) = Data_init /\
  close_fully_resets Sample.plain.
Proof.
  destruct (close_leaves_stream_after_parse_failure Sample.w0 "broken.pdf" 4%nat
              Runs.lifecycle_w0 eq_refl eq_refl eq_refl) as ((H1 & _ & H2 & H3) & H4).
  destruct (H4 Sample.plain Runs.lifecycle_plain) as (_ & _ & _ & _ & _ & _ & _ & H5).
  split; [exact H1|]. split; [exact H2|]. split; [exact H3|].
  split; [reflexivity|]. apply H5. left. discriminate.
Defined.

Lemma unlock_failure_keeps_state_witness :
  unlock_each ["guess"; "sesam"; ""] Sample.secret = ([false; false; false], Sample.secret) /\
  unlock "sesame" (snd (unlock_each ["guess"; "sesam"; ""] Sample.secret))
  = unlock "sesame" Sample.secret.
Proof.
  destruct (unlock_failure_keeps_state Sample.secret Runs.lifecycle_secret) as (_ & H).
  destruct (H eq_refl) as (_ & _ & Hretry).
  destruct (Hretry ["guess"; "sesam"; ""]) as [H1 H2]; [repeat constructor|].
  split; [exact H1 | exact (H2 "sesame")].
Defined.


Lemma pageMode_from_trailer_witness :
  Document_pageMode (snd (load "plain.pdf" Sample.w0)) = UseOutlines /\
  Document_pageMode (snd (unlock "sesame" Sample.secret)) = UseNone.
Proof.
  split.
  - destruct (pageMode_from_trailer Sample.w0 Runs.lifecycle_w0) as (_ & _ & H & _).
    exact (H eq_refl "plain.pdf").
  - destruct (pageMode_from_trailer Sample.secret Runs.lifecycle_secret)
      as (_ & _ & _ & H & _).
    exact (H eq_refl "sesame").
Defined.

Lemma unlock_accepted_without_root_witness :
  fst (unlock "pw" Sample.noroot) = false /\
  isLocked (snd (unlock "pw" Sample.noroot)) = false /\
  Document_pageCount (snd (unlock "pw" Sample.noroot)) = 0 /\
  mdoc (data (snd (unlock "pw" Sample.noroot))) = mdoc (data Sample.noroot) /\
  mdoc (data (snd (unlock "pw" Sample.noroot))) <> None /\
  unlock "pw" (snd (unlock "pw" Sample.noroot))
  = (false, snd (unlock "pw" Sample.noroot)).
Proof.
  destruct (unlock_accepted_without_root Sample.noroot "pw" Runs.lifecycle_noroot
              eq_refl eq_refl eq_refl) as (H1 & H2 & H3 & H4 & H5 & H6).
  exact (conj H1 (conj H2 (conj H3 (conj H4 (conj H5 (H6 "pw")))))).
Defined.

Lemma lifecycle_cached_values_witness :
  Document_pageCount (snd (unlock "sesame" Sample.secret)) = 5 /\
  isLocked (snd (unlock "sesame" Sample.secret)) = false.
Proof.
  destruct (lifecycle_cached_values (snd (unlock "sesame" Sample.secret))
              (lifecycle_unlock _ "sesame" Runs.lifecycle_secret)) as (_ & H).
  destruct H as (_ & _ & Hlk & _ & Hpc & _); [discriminate|].
  split; [exact Hpc | exact Hlk].
Defined.


Lemma version_order_witness :
  (SF2Q (version_float 1 4) < SF2Q (version_float 1 7))%Q /\
  (version_float 1 4 = version_float 1 7 -> 1 = 1 /\ 4 = 7) /\
  ((2 < 1 \/ (2 = 1 /\ 0 < 7)) <->
   (SF2Q (version_float 2 0) < SF2Q (version_float 1 7))%Q).
Proof.
  destruct (version_order 1 4 1 7) as (H1 & H2 & _); try lia.
  destruct H2 as [_ Hinj]; try lia.
  destruct (version_order 2 0 1 7) as (_ & H3 & _); try lia.
  destruct H3 as [Hiff _]; try lia.
  split; [apply H1; lia|]. split; [exact Hinj | exact Hiff].
Defined.

Lemma pdfVersion_lenient_witness :
  pdfVersion Sample.plain = version_float (int_stored 1) (int_stored 7) /\
  pdfVersion Sample.plain = version_float 1 7.
Proof.
  assert (Hsp : Forall (fun c => isspace c = true) [" "%char]) by (repeat constructor).
  assert (Hd1 : Forall (fun d => (d < 10)%nat) [1%nat]) by (repeat constructor).
  assert (Hd2 : Forall (fun d => (d < 10)%nat) [7%nat]) by (repeat constructor).
  assert (Hne1 : [1%nat] <> []) by discriminate.
  assert (Hne2 : [7%nat] <> []) by discriminate.
  destruct (pdfVersion_lenient Sample.plain 1%nat [" "%char] [1%nat] [7%nat] EmptyString
              eq_refl eq_refl Hsp Hne1 Hne2 Hd1 Hd2 I) as [H1 H2].
  split; [exact H1 | apply H2; reflexivity].
Defined.

Lemma load_after_close_witness :
  fst (load "secret.pdf" (snd (close Sample.plain))) = fst (load "secret.pdf" Sample.w0) /\
  data (snd (load "secret.pdf" (snd (close Sample.plain)))) = data Sample.secret.
Proof.
  apply (load_after_close Sample.plain "secret.pdf" "de_DE.UTF-8" [] []). discriminate.
Defined.

Lemma unlock_retry_witness :
  unlock_each ["guess"; "sesame"; "sesame"] Sample.secret
  = ([false; true; false], snd (unlock "sesame" Sample.secret)) /\
  isLocked (snd (unlock "sesame" Sample.secret)) = false /\
  Document_pageCount (snd (unlock "sesame" Sample.secret)) = 5.
Proof.
  apply (unlock_retry Sample.secret ["guess"] "sesame" ["sesame"]);
    try reflexivity; [repeat constructor | discriminate].
Defined.
